(** * dedupe: the content-addressed line store and its binary codec

    A shallow embedding of [final_dedupe_cli.py] (classes [HashStore] and
    [DedupeEngine], function [main]) together with the parts of the sibling
    tool [collision_dedup_cli.py] that the properties below compare it with.

    Text is modelled as [string] (a Python [str] seen through its UTF-8
    bytes), binary data as [list byte], the dictionary [HashStore.store] as a
    [gmap string string] keyed by the eight-digit hexadecimal digest, and
    everything the program does to the outside world (printing, writing
    files, leaving with an exit status) as explicit state and outcomes. *)

From Stdlib Require Import ZArith List Bool Lia.
From Stdlib.Strings Require Import Ascii String Byte.
From stdpp Require Import base option list strings pretty gmap fin_maps.

Local Open Scope string_scope.
Local Open Scope list_scope.
Local Open Scope Z_scope.

(** ** Bytes and hexadecimal text *)

Module Bytes.

Definition to_Z (b : byte) : Z := Z.of_N (Byte.to_N b).

(** The byte whose value is [z mod 256]. *)
Definition of_Z (z : Z) : byte :=
  match Byte.of_N (Z.to_N (Z.land z 255)) with
  | Some b => b
  | None => x00
  end.

Definition of_string (s : string) : list byte := list_byte_of_string s.

Definition hex_digit (n : N) : ascii :=
  match n with
  | 0 => "0" | 1 => "1" | 2 => "2" | 3 => "3" | 4 => "4" | 5 => "5"
  | 6 => "6" | 7 => "7" | 8 => "8" | 9 => "9" | 10 => "a" | 11 => "b"
  | 12 => "c" | 13 => "d" | 14 => "e" | _ => "f"
  end%N%char.

(** [bytes.hex()]: two lower-case digits per byte, high nibble first. *)
Fixpoint hex (bs : list byte) : string :=
  match bs with
  | [] => EmptyString
  | b :: rest =>
      String (hex_digit (N.div (Byte.to_N b) 16))
        (String (hex_digit (N.modulo (Byte.to_N b) 16)) (hex rest))
  end.

(** Value of one hexadecimal digit, and the byte written by two of them
    (the inverse of [hex] on one byte, as [bytes.fromhex] computes it). *)
Definition digit_value (c : ascii) : N :=
  let n := N_of_ascii c in
  if (n <? 58)%N then (n - 48)%N else (n - 87)%N.

Definition fromhex2 (hi lo : ascii) : byte :=
  of_Z (Z.of_N (16 * digit_value hi + digit_value lo)).

End Bytes.

(** ** The [xxhash] library: 32-bit xxHash

    [xxhash.xxh32(data, seed)] builds a hash object; [intdigest] is the
    32-bit value, [digest] its four bytes in big-endian order and
    [hexdigest] the hexadecimal text of [digest]. *)

Module xxhash.

Definition PRIME32_1 : Z := 2654435761.
Definition PRIME32_2 : Z := 2246822519.
Definition PRIME32_3 : Z := 3266489917.
Definition PRIME32_4 : Z := 668265263.
Definition PRIME32_5 : Z := 374761393.

Definition wrap32 (x : Z) : Z := x mod 4294967296.

Definition rotl32 (x : Z) (r : Z) : Z :=
  wrap32 (Z.lor (Z.shiftl x r) (Z.shiftr (wrap32 x) (32 - r))).

Definition read32le (b0 b1 b2 b3 : byte) : Z :=
  Bytes.to_Z b0 + Z.shiftl (Bytes.to_Z b1) 8
  + Z.shiftl (Bytes.to_Z b2) 16 + Z.shiftl (Bytes.to_Z b3) 24.

Definition round (acc input : Z) : Z :=
  wrap32 (rotl32 (wrap32 (acc + input * PRIME32_2)) 13 * PRIME32_1).

(** The accumulator loop: one step per complete 16-byte stripe; returns
    the four lanes and the bytes left over. *)
Fixpoint stripes (v1 v2 v3 v4 : Z) (data : list byte)
  : Z * Z * Z * Z * list byte :=
  match data with
  | a0 :: a1 :: a2 :: a3 :: b0 :: b1 :: b2 :: b3
    :: c0 :: c1 :: c2 :: c3 :: d0 :: d1 :: d2 :: d3 :: rest =>
      stripes (round v1 (read32le a0 a1 a2 a3))
              (round v2 (read32le b0 b1 b2 b3))
              (round v3 (read32le c0 c1 c2 c3))
              (round v4 (read32le d0 d1 d2 d3)) rest
  | _ => (v1, v2, v3, v4, data)
  end.

(** The tail: whole 4-byte words first, then single bytes. *)
Fixpoint finalize (h : Z) (data : list byte) : Z :=
  match data with
  | b0 :: b1 :: b2 :: b3 :: rest =>
      finalize
        (wrap32 (rotl32 (wrap32 (h + read32le b0 b1 b2 b3 * PRIME32_3)) 17
                 * PRIME32_4)) rest
  | b0 :: rest =>
      finalize
        (wrap32 (rotl32 (wrap32 (h + Bytes.to_Z b0 * PRIME32_5)) 11
                 * PRIME32_1)) rest
  | [] => h
  end.

Definition avalanche (h : Z) : Z :=
  let h := Z.lxor h (Z.shiftr h 15) in
  let h := wrap32 (h * PRIME32_2) in
  let h := Z.lxor h (Z.shiftr h 13) in
  let h := wrap32 (h * PRIME32_3) in
  Z.lxor h (Z.shiftr h 16).

Definition XXH32 (data : list byte) (seed : Z) : Z :=
  let len := Z.of_nat (length data) in
  let '(h, rest) :=
    if 16 <=? len then
      let '(v1, v2, v3, v4, rest) :=
        stripes (wrap32 (seed + PRIME32_1 + PRIME32_2))
                (wrap32 (seed + PRIME32_2))
                (wrap32 seed)
                (wrap32 (seed - PRIME32_1)) data in
      (wrap32 (rotl32 v1 1 + rotl32 v2 7 + rotl32 v3 12 + rotl32 v4 18),
       rest)
    else (wrap32 (seed + PRIME32_5), data) in
  avalanche (finalize (wrap32 (h + len)) rest).

(** A hash object, as returned by [xxhash.xxh32(...)]. *)
Record xxh32 : Type := Build_xxh32 { intdigest : Z }.

Definition xxh32_new (text : string) (seed : Z) : xxh32 :=
  {| intdigest := XXH32 (Bytes.of_string text) seed |}.

Definition digest (h : xxh32) : list byte :=
  [ Bytes.of_Z (Z.shiftr (intdigest h) 24);
    Bytes.of_Z (Z.shiftr (intdigest h) 16);
    Bytes.of_Z (Z.shiftr (intdigest h) 8);
    Bytes.of_Z (intdigest h) ].

Definition hexdigest (h : xxh32) : string := Bytes.hex (digest h).

End xxhash.

Arguments xxhash.digest : simpl never.
Arguments xxhash.hexdigest : simpl never.

(** ** Text lines *)

Definition newline : ascii := "010"%char.

(** [str.rstrip('\n')]: drops every trailing newline character. *)
Fixpoint rstrip_nl (s : string) : string :=
  match s with
  | EmptyString => EmptyString
  | String c rest =>
      match rstrip_nl rest with
      | EmptyString => if Ascii.eqb c newline then EmptyString
                       else String c EmptyString
      | r => String c r
      end
  end.

(** Truth value of a Python string: only the empty string is false. *)
Definition truthy (s : string) : bool :=
  match s with EmptyString => false | _ => true end.

(** ** Exceptions and what is printed *)

(** The exception classes that matter here. [IOError] is Python 3's alias
    of [OSError]; [FileNotFoundError] and [gzip.BadGzipFile] derive from it,
    [EOFError], [pickle.UnpicklingError] and [zlib.error] do not. *)
Inductive exn : Type :=
| OSError | FileNotFoundError | BadGzipFile
| UnpicklingError | EOFError | ZlibError | OtherException.

Definition is_IOError (e : exn) : bool :=
  match e with
  | OSError | FileNotFoundError | BadGzipFile => true
  | _ => false
  end.

Definition is_UnpicklingError (e : exn) : bool :=
  match e with UnpicklingError => true | _ => false end.

Definition is_EOFError (e : exn) : bool :=
  match e with EOFError => true | _ => false end.

Definition is_BadGzipFile (e : exn) : bool :=
  match e with BadGzipFile => true | _ => false end.

Definition exn_name (e : exn) : string :=
  match e with
  | OSError => "OSError" | FileNotFoundError => "FileNotFoundError"
  | BadGzipFile => "BadGzipFile" | UnpicklingError => "UnpicklingError"
  | EOFError => "EOFError" | ZlibError => "zlib.error"
  | OtherException => "Exception"
  end.

(** One constructor per [print] call of [final_dedupe_cli.py]. *)
Inductive printed : Type :=
| LoadedStore (db_path : string)
| WarnLoadFailed (db_path : string) (e : exn)
| NoExistingStore (db_path : string)
| SavedStore (db_path : string)
| ErrorSave (db_path : string) (e : exn)
| WarnCollision (hash_hex original rejected : string)
| NoFilesFound (glob_pattern : string)
| ProcessingFile (filepath : string)
| ErrorProcessing (filepath : string) (e : exn)
| SeedingComplete
| TotalLines (n : nat)
| NewUniqueLines (n : nat)
| ErrorInputNotFound (input_file : string)
| EncodingStart (input_file output_file : string)
| EncodingComplete
| ErrorFileProcessing (e : exn)
| ErrorHashFileNotFound (hash_file : string)
| DecodingStart (hash_file : string)
| BlankLine                          (* print() *)
| TextLine (text : string)           (* print(store[key]) *)
| WarnIncomplete
| WarnHashNotFound (hash_hex : string)
| DecodingComplete
| ErrorDecoding (e : exn)
(* the [print] calls of the seed action of [collision_dedup_cli.py] *)
| C_Loaded (n : nat) (blob_path : string)
| C_WarnLoadFailed (blob_path : string) (e : exn)
| C_UnexpectedLoadError (e : exn)
| C_Saved (n : nat) (blob_path : string)
| C_ErrorWrite (blob_path : string) (e : exn)
| C_WarnCollision (item_hash existing ignored : string)
| C_Seeding (db_path glob_pattern : string)
| C_WarnNoFiles (glob_pattern : string)
| C_ProcessingFile (file_path : string)
| C_ErrorFileNotFound (file_path : string)
| C_UnexpectedError (file_path : string) (e : exn)
| C_SeedingComplete
| C_Processed (n_files n_lines : nat)
| C_Added (n : nat).

(** The text each call prints (the exception's own message is outside the
    model; its class name stands for it). *)
Definition render (p : printed) : string :=
  let nl := String newline EmptyString in
  match p with
  | LoadedStore db_path =>
      "Successfully loaded hash store from '" +:+ db_path +:+ "'."
  | WarnLoadFailed db_path e =>
      "Warning: Could not load data from '" +:+ db_path
      +:+ "'. Creating a new empty store. Error: " +:+ exn_name e
  | NoExistingStore db_path =>
      "No existing hash store found at '" +:+ db_path
      +:+ "'. A new store will be created on save."
  | SavedStore db_path =>
      "Successfully saved hash store to '" +:+ db_path +:+ "'."
  | ErrorSave db_path e =>
      "Error: Could not save hash store to '" +:+ db_path
      +:+ "'. Error: " +:+ exn_name e
  | WarnCollision hash_hex original rejected =>
      "Warning: Hash collision detected for hex '" +:+ hash_hex
      +:+ "'. Original: '" +:+ original +:+ "', New: '" +:+ rejected
      +:+ "'. New item ignored."
  | NoFilesFound glob_pattern =>
      "No files found matching glob pattern '" +:+ glob_pattern +:+ "'."
  | ProcessingFile filepath => "Processing file: " +:+ filepath
  | ErrorProcessing filepath e =>
      "Error processing file '" +:+ filepath +:+ "': " +:+ exn_name e
  | SeedingComplete => nl +:+ "Seeding complete."
  | TotalLines n => "Total lines processed: " +:+ pretty n
  | NewUniqueLines n => "New unique lines added to store: " +:+ pretty n
  | ErrorInputNotFound input_file =>
      "Error: Input file not found at '" +:+ input_file +:+ "'."
  | EncodingStart input_file output_file =>
      "Encoding '" +:+ input_file +:+ "' to '" +:+ output_file +:+ "'..."
  | EncodingComplete => "Encoding complete."
  | ErrorFileProcessing e =>
      "Error during file processing: " +:+ exn_name e
  | ErrorHashFileNotFound hash_file =>
      "Error: Hash file not found at '" +:+ hash_file +:+ "'."
  | DecodingStart hash_file => "Decoding '" +:+ hash_file +:+ "'..."
  | BlankLine => EmptyString
  | TextLine text => text
  | WarnIncomplete =>
      nl +:+ "Warning: Incomplete hash block found at the end of the file. "
      +:+ "Stopping decode."
  | WarnHashNotFound hash_hex =>
      nl +:+ "Warning: Hash '" +:+ hash_hex
      +:+ "' not found in the database. "
      +:+ "The original line cannot be restored. "
      +:+ "The file may have been created with a different database."
  | DecodingComplete => nl +:+ "Decoding complete."
  | ErrorDecoding e => "Error during file decoding: " +:+ exn_name e
  | C_Loaded n blob_path =>
      "Loaded " +:+ pretty n +:+ " items from " +:+ blob_path
  | C_WarnLoadFailed blob_path e =>
      "Warning: Could not load data blob from " +:+ blob_path
      +:+ ". Starting fresh. Error: " +:+ exn_name e
  | C_UnexpectedLoadError e =>
      "An unexpected error occurred while loading: " +:+ exn_name e
  | C_Saved n blob_path =>
      "Successfully saved " +:+ pretty n +:+ " items to " +:+ blob_path
  | C_ErrorWrite blob_path e =>
      "Error: Could not write to blob file at " +:+ blob_path
      +:+ ". Error: " +:+ exn_name e
  | C_WarnCollision item_hash existing ignored =>
      "WARNING: Hash collision detected! The following string was ignored:"
      +:+ nl +:+ "  Hash: '" +:+ item_hash +:+ "'"
      +:+ nl +:+ "  Existing string: '" +:+ existing +:+ "'"
      +:+ nl +:+ "  Ignored string:  '" +:+ ignored +:+ "'"
  | C_Seeding db_path glob_pattern =>
      "Seeding database '" +:+ db_path
      +:+ "' with files matching glob pattern: '" +:+ glob_pattern +:+ "'"
  | C_WarnNoFiles glob_pattern =>
      "Warning: No files found matching '" +:+ glob_pattern +:+ "'. Exiting."
  | C_ProcessingFile file_path => "Processing file: " +:+ file_path
  | C_ErrorFileNotFound file_path =>
      "Error: File not found at " +:+ file_path +:+ ". Skipping."
  | C_UnexpectedError file_path e =>
      "An unexpected error occurred while processing " +:+ file_path
      +:+ ": " +:+ exn_name e +:+ ". Skipping."
  | C_SeedingComplete => nl +:+ "--- Seeding Complete ---"
  | C_Processed n_files n_lines =>
      "Processed " +:+ pretty n_files +:+ " file(s) and " +:+ pretty n_lines
      +:+ " total lines."
  | C_Added n =>
      "Added " +:+ pretty n +:+ " new unique lines to the database."
  end.

(** The reconstructed text: the lines that decoding prints, in order. *)
Definition output_line (p : printed) : option string :=
  match p with
  | BlankLine => Some EmptyString
  | TextLine text => Some text
  | _ => None
  end.

Definition output_lines (out : list printed) : list string :=
  omap output_line out.

(** ** The outside world and the running process *)

(** What can strike inside the encoding loop of [process_and_encode], once
    both files are open: nothing; an exception on reading the line that
    follows the first [lines_read] ones; or an exception on the write that
    follows the first [records_written] ones, which is the closing flush
    when every record has been written. *)
Inductive io_fault : Type :=
| NoFault
| ReadFault (lines_read : nat) (e : exn)
| WriteFault (records_written : nat) (e : exn).

(** What the operating system answers. Reading is an oracle per path:
    either the exception the call raises or what it yields. *)
Record os : Type := {
  path_exists : string -> bool;                        (* os.path.exists *)
  glob_glob : string -> bool -> list string;  (* glob.glob(p, recursive) *)
  open_text : string -> exn + list string;             (* open(p, 'r'): lines *)
  open_binary : string -> exn + list byte;             (* open(p, 'rb') *)
  gzip_pickle_load : string -> exn + gmap string string;
                                   (* gzip.open(p, 'rb') and pickle.load *)
  open_write : string -> option exn;         (* the exception on writing p *)
  same_file : string -> string -> bool;   (* the two paths name one file *)
  encode_fault : string -> string -> io_fault
                  (* what strikes while input is read and output written *)
}.

(** The process: the dictionary of the one [HashStore] object that [main]
    creates and the engine shares, the standard output, the binary files
    written and the store blobs saved, oldest first. *)
Record process : Type := {
  store : gmap string string;
  stdout : list printed;
  files : list (string * list byte);
  blobs : list (string * gmap string string)
}.

Definition initial : process :=
  {| store := ∅; stdout := []; files := []; blobs := [] |}.

(** How a call ends: it returns, [sys.exit(status)] was called, or an
    exception escapes. *)
Inductive outcome (A : Type) : Type :=
| Returns (a : A)
| Exits (status : Z)
| Raises (e : exn).
Arguments Returns {A} a.
Arguments Exits {A} status.
Arguments Raises {A} e.

Definition M (A : Type) : Type := process -> outcome A * process.

#[global] Instance M_ret : MRet M := fun A (a : A) p => (Returns a, p).

#[global] Instance M_bind : MBind M :=
  fun A B (k : A -> M B) (m : M A) p =>
    match m p with
    | (Returns a, p') => k a p'
    | (Exits n, p') => (Exits n, p')
    | (Raises e, p') => (Raises e, p')
    end.

Definition sys_exit {A} (status : Z) : M A := fun p => (Exits status, p).
Definition raise {A} (e : exn) : M A := fun p => (Raises e, p).

Definition print (m : printed) : M unit := fun p =>
  (Returns tt,
   {| store := store p; stdout := stdout p ++ [m];
      files := files p; blobs := blobs p |}).

Definition print_all (ms : list printed) : M unit := fun p =>
  (Returns tt,
   {| store := store p; stdout := stdout p ++ ms;
      files := files p; blobs := blobs p |}).

Definition get_store : M (gmap string string) := fun p => (Returns (store p), p).

Definition set_store (d : gmap string string) : M unit := fun p =>
  (Returns tt,
   {| store := d; stdout := stdout p; files := files p; blobs := blobs p |}).

Definition write_file (path : string) (data : list byte) : M unit := fun p =>
  (Returns tt,
   {| store := store p; stdout := stdout p;
      files := files p ++ [(path, data)]; blobs := blobs p |}).

Definition write_blob (path : string) (d : gmap string string) : M unit :=
  fun p =>
    (Returns tt,
     {| store := store p; stdout := stdout p;
        files := files p; blobs := blobs p ++ [(path, d)] |}).

(** The status the shell sees: 0 on normal return, the argument of
    [sys.exit], 1 for a traceback. *)
Definition exit_status {A} (r : outcome A * process) : Z :=
  match fst r with
  | Returns _ => 0
  | Exits n => n
  | Raises _ => 1
  end.

(** ** class HashStore *)

Module HashStore.

(** [add_item]: the dictionary after the call, the value returned and
    what was printed. *)
Definition add_item (store : gmap string string)
    (xxhash_obj : xxhash.xxh32) (text : string)
  : gmap string string * bool * list printed :=
  let hash_hex := xxhash.hexdigest xxhash_obj in
  match store !! hash_hex with
  | Some existing =>
      if String.eqb existing text then (store, false, [])
      else (store, false, [WarnCollision hash_hex existing text])
  | None => (<[hash_hex := text]> store, true, [])
  end.

Definition _load (w : os) (db_path : string) : M unit :=
  if path_exists w db_path then
    match gzip_pickle_load w db_path with
    | inr d => set_store d ;; print (LoadedStore db_path)
    | inl e =>
        if is_IOError e || is_UnpicklingError e then
          print (WarnLoadFailed db_path e) ;; set_store ∅
        else raise e
    end
  else print (NoExistingStore db_path).

Definition __init__ (w : os) (db_path : string) : M unit :=
  set_store ∅ ;; _load w db_path.

Definition save (w : os) (db_path : string) : M unit :=
  match open_write w db_path with
  | None =>
      d ← get_store; write_blob db_path d ;; print (SavedStore db_path)
  | Some e =>
      if is_IOError e then print (ErrorSave db_path e) ;; sys_exit 1
      else raise e
  end.

End HashStore.

(** ** class DedupeEngine: the loops *)

Section Engine.

(** The call [xxhash.xxh32(line, seed=0)]. It is a parameter so that the
    results cover any 32-bit hash; [xxh32_seed0] below is the real one. *)
Variable xxh32 : string -> xxhash.xxh32.

(** State of the seeding loop: dictionary, [unique_lines_added],
    [total_lines_processed], printed warnings. *)
Definition seed_line
    (st : gmap string string * nat * nat * list printed) (raw : string)
  : gmap string string * nat * nat * list printed :=
  let '(store, unique_lines_added, total_lines_processed, out) := st in
  let total_lines_processed := S total_lines_processed in
  let line := rstrip_nl raw in
  if truthy line then
    let h := xxh32 line in
    let '(store', added, warn) := HashStore.add_item store h line in
    (store', (if added then S unique_lines_added else unique_lines_added),
     total_lines_processed, out ++ warn)
  else (store, unique_lines_added, total_lines_processed, out).

(** State of the encoding loop: dictionary, bytes written to [outfile],
    printed warnings. *)
Definition encode_line
    (st : gmap string string * list byte * list printed) (raw : string)
  : gmap string string * list byte * list printed :=
  let '(store, outfile, out) := st in
  let line := rstrip_nl raw in
  if negb (truthy line) then (store, outfile ++ [x00], out)
  else
    let h := xxh32 line in
    let '(store', _, warn) := HashStore.add_item store h line in
    (store', outfile ++ xxhash.digest h, out ++ warn).

Definition encode_loop (store : gmap string string) (infile : list string)
  : gmap string string * list byte * list printed :=
  fold_left encode_line infile (store, [], []).

End Engine.

(** Lines 184-192 of [decode_and_print]: look the four bytes up. *)
Definition decode_hash (store : gmap string string)
    (full_hash_bytes : list byte) : printed :=
  let hash_hex_key := Bytes.hex full_hash_bytes in
  match store !! hash_hex_key with
  | Some text => TextLine text
  | None => WarnHashNotFound hash_hex_key
  end.

(** The [while True] loop of [decode_and_print] over the bytes that remain
    in [infile]. *)
Fixpoint decode_loop (store : gmap string string) (infile : list byte)
  : list printed :=
  match infile with
  | [] => []
  | chunk :: after1 =>
      if Byte.eqb chunk x00 then BlankLine :: decode_loop store after1
      else
        match after1 with
        | b1 :: b2 :: b3 :: after4 =>
            decode_hash store [chunk; b1; b2; b3] :: decode_loop store after4
        | _ => [WarnIncomplete]
        end
  end.

(** ** class DedupeEngine: the methods, and [main] *)

(** The parsed command line. The three actions are mutually exclusive
    and one is required; [db] has a default. *)
Record args : Type := {
  db : string;
  seed : option string;
  input : option string;
  decode : option string;
  output : option string
}.

Section Methods.

Variable xxh32 : string -> xxhash.xxh32.
Variable w : os.

(** The [for filepath in files] loop, carrying the two counters. *)
Fixpoint seed_files (files : list string)
    (unique_lines_added total_lines_processed : nat) : M (nat * nat) :=
  match files with
  | [] => mret (unique_lines_added, total_lines_processed)
  | filepath :: rest =>
      match open_text w filepath with
      | inr infile =>
          print (ProcessingFile filepath) ;;
          d ← get_store;
          let '(d', unique, total, out) :=
            fold_left (seed_line xxh32) infile
              (d, unique_lines_added, total_lines_processed, []) in
          set_store d' ;; print_all out ;;
          seed_files rest unique total
      | inl e =>
          if is_IOError e then
            print (ErrorProcessing filepath e) ;;
            seed_files rest unique_lines_added total_lines_processed
          else raise e
      end
  end.

Definition seed_from_glob (glob_pattern : string) : M unit :=
  match glob_glob w glob_pattern false with
  | [] => print (NoFilesFound glob_pattern)
  | files =>
      counts ← seed_files files 0%nat 0%nat;
      print SeedingComplete ;;
      print (TotalLines (snd counts)) ;;
      print (NewUniqueLines (fst counts))
  end.

(** The [for line in infile] loop of [process_and_encode] under a fault:
    the dictionary, the bytes handed to [outfile.write] and the warnings
    up to the point where the exception, if any, is raised. A line whose
    write fails has already been through [add_item]. A read fault placed
    beyond the end of the input never strikes; a write fault placed there
    strikes when the file is closed. *)
Definition encode_with_fault (fault : io_fault)
    (store : gmap string string) (infile : list string)
    : gmap string string * list byte * list printed * option exn :=
  match fault with
  | NoFault => (encode_loop xxh32 store infile, None)
  | ReadFault n e =>
      if (n <=? length infile)%nat
      then (encode_loop xxh32 store (take n infile), Some e)
      else (encode_loop xxh32 store infile, None)
  | WriteFault n e =>
      match infile !! n with
      | Some raw =>
          let '(d, outfile, out) := encode_loop xxh32 store (take n infile) in
          let '(d', _, out') := encode_line xxh32 (d, outfile, out) raw in
          (d', outfile, out', Some e)
      | None => (encode_loop xxh32 store infile, Some e)
      end
  end.

(** [open(output_file, 'wb')] creates or empties the output file before the
    first line is read: when it is the input file itself there is nothing
    left to read. The [try] covers both opens, the loop and the closes, so
    an exception can leave the call after the dictionary has grown and the
    output file has been created; the file then holds at most the bytes
    written before the exception. *)
Definition process_and_encode (input_file output_file : string) : M unit :=
  if negb (path_exists w input_file) then
    print (ErrorInputNotFound input_file) ;; sys_exit 1
  else
    let on_error (e : exn) : M unit :=
      if is_IOError e then print (ErrorFileProcessing e) ;; sys_exit 1
      else raise e in
    match open_text w input_file with
    | inl e => on_error e
    | inr lines =>
        match open_write w output_file with
        | Some e => on_error e
        | None =>
            let infile :=
              if same_file w input_file output_file then [] else lines in
            print (EncodingStart input_file output_file) ;;
            d ← get_store;
            let '(d', outfile, out, fault) :=
              encode_with_fault
                (encode_fault w input_file output_file) d infile in
            set_store d' ;; print_all out ;;
            write_file output_file outfile ;;
            match fault with
            | Some e => on_error e
            | None => print EncodingComplete
            end
        end
    end.

Definition decode_and_print (hash_file : string) : M unit :=
  if negb (path_exists w hash_file) then
    print (ErrorHashFileNotFound hash_file) ;; sys_exit 1
  else
    match open_binary w hash_file with
    | inl e =>
        if is_IOError e then print (ErrorDecoding e) ;; sys_exit 1
        else raise e
    | inr infile =>
        print (DecodingStart hash_file) ;;
        d ← get_store;
        print_all (decode_loop d infile) ;;
        print DecodingComplete
    end.

(** Truth value of an optional argument ([None] and [''] are false). *)
Definition given (a : option string) : option string :=
  match a with
  | Some s => if truthy s then Some s else None
  | None => None
  end.

Definition main (a : args) : M unit :=
  HashStore.__init__ w (db a) ;;
  match given (seed a) with
  | Some glob_pattern => seed_from_glob glob_pattern
  | None =>
      match given (input a) with
      | Some input_file =>
          match given (output a) with
          | Some output_file => process_and_encode input_file output_file
          | None => sys_exit 2                       (* parser.error *)
          end
      | None =>
          match given (decode a) with
          | Some hash_file => decode_and_print hash_file
          | None => mret tt
          end
      end
  end ;;
  HashStore.save w (db a).

End Methods.

(** ** The sibling tool [collision_dedup_cli.py]: loading and seeding

    Its hash (a slice of a SHA-256 digest) and [str.strip] are parameters. *)

Module CollisionCli.
Section Sibling.

Variable _generate_hash : string -> string.
Variable strip : string -> string.
Variable w : os.

Definition add_item (items : gmap string string)
    (item_hash original_string : string)
  : gmap string string * bool * list printed :=
  match items !! item_hash with
  | Some existing =>
      if String.eqb existing original_string then (items, false, [])
      else (items, false,
            [C_WarnCollision item_hash existing original_string])
  | None => (<[item_hash := original_string]> items, true, [])
  end.

(** [_load_store]: every exception of the load is caught. *)
Definition _load_store (blob_path : string) : M unit :=
  if path_exists w blob_path then
    match gzip_pickle_load w blob_path with
    | inr d => set_store d ;; print (C_Loaded (size d) blob_path)
    | inl e =>
        if is_UnpicklingError e || is_EOFError e || is_BadGzipFile e then
          print (C_WarnLoadFailed blob_path e) ;; set_store ∅
        else                                        (* except Exception *)
          print (C_UnexpectedLoadError e) ;; set_store ∅
    end
  else mret tt.

Definition save_store (blob_path : string) : M unit :=
  match open_write w blob_path with
  | None =>
      d ← get_store; write_blob blob_path d ;;
      print (C_Saved (size d) blob_path)
  | Some e =>
      if is_IOError e then print (C_ErrorWrite blob_path e) else raise e
  end.

(** [process_line] inside the seeding loop: dictionary, new-line counter,
    line counter, printed warnings. *)
Definition seed_line
    (st : gmap string string * nat * nat * list printed) (line : string)
  : gmap string string * nat * nat * list printed :=
  let '(items, total_new_lines, total_lines, out) := st in
  let total_lines := S total_lines in
  let stripped_line := strip line in
  if negb (truthy stripped_line) then
    (items, total_new_lines, total_lines, out)
  else
    let line_hash := _generate_hash stripped_line in
    let '(items', is_new, warn) := add_item items line_hash stripped_line in
    (items', (if is_new then S total_new_lines else total_new_lines),
     total_lines, out ++ warn).

Fixpoint seed_files (file_paths : list string)
    (total_new_lines total_lines : nat) : M (nat * nat) :=
  match file_paths with
  | [] => mret (total_new_lines, total_lines)
  | file_path :: rest =>
      print (C_ProcessingFile file_path) ;;
      match open_text w file_path with
      | inr f =>
          d ← get_store;
          let '(d', new_lines, lines, out) :=
            fold_left seed_line f (d, total_new_lines, total_lines, []) in
          set_store d' ;; print_all out ;;
          seed_files rest new_lines lines
      | inl e =>
          print (match e with
                 | FileNotFoundError => C_ErrorFileNotFound file_path
                 | _ => C_UnexpectedError file_path e
                 end) ;;
          seed_files rest total_new_lines total_lines
      end
  end.

(** The branch [if args.seed:] of [main]. *)
Definition main_seed (db_path glob_pattern : string) : M unit :=
  print (C_Seeding db_path glob_pattern) ;;
  match glob_glob w glob_pattern true with
  | [] => print (C_WarnNoFiles glob_pattern) ;; sys_exit 1
  | file_paths =>
      set_store ∅ ;; _load_store db_path ;;
      counts ← seed_files file_paths 0%nat 0%nat;
      print C_SeedingComplete ;;
      print (C_Processed (length file_paths) (snd counts)) ;;
      print (C_Added (fst counts)) ;;
      save_store db_path
  end.

End Sibling.
End CollisionCli.

Definition xxh32_seed0 (line : string) : xxhash.xxh32 :=
  xxhash.xxh32_new line 0.

(** ** Vocabulary of the properties *)

(** The stream is a sequence of complete records as the decoder frames
    them: a marker byte alone, or a non-marker byte and three more. *)
Fixpoint complete_records (infile : list byte) : bool :=
  match infile with
  | [] => true
  | chunk :: after1 =>
      if Byte.eqb chunk x00 then complete_records after1
      else
        match after1 with
        | _ :: _ :: _ :: after4 => complete_records after4
        | _ => false
        end
  end.

(** First byte of a digest (the marker if there is none). *)
Definition first_byte (bs : list byte) : byte := hd x00 bs.

(** The record that encoding writes for a line already stripped. *)
Definition record_of (xxh32 : string -> xxhash.xxh32) (line : string)
  : list byte :=
  if truthy line then xxhash.digest (xxh32 line) else [x00].

(** Python's ASCII white space. *)
Definition is_space (c : ascii) : bool :=
  let n := N_of_ascii c in
  ((9 <=? n) && (n <=? 13) || (n =? 32))%N.

Fixpoint whitespace_only (s : string) : bool :=
  match s with
  | EmptyString => true
  | String c rest => is_space c && whitespace_only rest
  end.

Fixpoint no_newline (s : string) : bool :=
  match s with
  | EmptyString => true
  | String c rest => negb (Ascii.eqb c newline) && no_newline rest
  end.

(** A line as the file iterator yields it: the text and its terminator. *)
Definition terminated (line : string) : string :=
  String.append line (String newline EmptyString).

(** What decoding prints for one line of the original text. *)
Definition line_printed (line : string) : printed :=
  if truthy line then TextLine line else BlankLine.

(** The dictionary holds no other text under the hash of any non-empty
    line of [lines]. *)
Definition compatible (xxh32 : string -> xxhash.xxh32)
    (lines : list string) (store : gmap string string) : Prop :=
  forall l v, l ∈ lines -> l <> EmptyString ->
    store !! xxhash.hexdigest (xxh32 l) = Some v -> v = l.

(** Different non-empty lines of [lines] have different four-byte hashes. *)
Definition distinct_hashes (xxh32 : string -> xxhash.xxh32)
    (lines : list string) : Prop :=
  forall l1 l2, l1 ∈ lines -> l2 ∈ lines ->
    l1 <> EmptyString -> l2 <> EmptyString ->
    xxhash.digest (xxh32 l1) = xxhash.digest (xxh32 l2) -> l1 = l2.

(** No non-empty line of [lines] has a hash that starts with the marker. *)
Definition no_marker_prefix (xxh32 : string -> xxhash.xxh32)
    (lines : list string) : Prop :=
  forall l, l ∈ lines -> l <> EmptyString ->
    first_byte (xxhash.digest (xxh32 l)) <> x00.

Definition tab : ascii := "009"%char.

(** ** Sample worlds and command lines *)

(** No file exists anywhere, nothing matches any pattern, every path can be
    written. *)
Definition bare_os : os :=
  {| path_exists := fun _ => false;
     glob_glob := fun _ _ => [];
     open_text := fun _ => inl FileNotFoundError;
     open_binary := fun _ => inl FileNotFoundError;
     gzip_pickle_load := fun _ => inl FileNotFoundError;
     open_write := fun _ => None;
     same_file := String.eqb;
     encode_fault := fun _ _ => NoFault |}.

(** The store file exists and is empty (or a gzip stream cut short): the
    load ends in [EOFError]. *)
Definition os_with_truncated_db : os :=
  {| path_exists := fun p => String.eqb p "dedupe_main.db";
     glob_glob := fun _ _ => [];
     open_text := fun _ => inl FileNotFoundError;
     open_binary := fun _ => inl FileNotFoundError;
     gzip_pickle_load := fun _ => inl EOFError;
     open_write := fun _ => None;
     same_file := String.eqb;
     encode_fault := fun _ _ => NoFault |}.

(** The store file exists and holds bytes that are no gzip stream: the
    load ends in [gzip.BadGzipFile]. *)
Definition os_with_garbage_db : os :=
  {| path_exists := fun p => String.eqb p "dedupe_main.db";
     glob_glob := fun _ _ => [];
     open_text := fun _ => inl FileNotFoundError;
     open_binary := fun _ => inl FileNotFoundError;
     gzip_pickle_load := fun _ => inl BadGzipFile;
     open_write := fun _ => None;
     same_file := String.eqb;
     encode_fault := fun _ _ => NoFault |}.

(** No store file; the hash file "out.bin" holds the record of "foo" with
    its last byte missing. *)
Definition os_with_truncated_stream : os :=
  {| path_exists := fun p => String.eqb p "out.bin";
     glob_glob := fun _ _ => [];
     open_text := fun _ => inl FileNotFoundError;
     open_binary := fun p =>
       if String.eqb p "out.bin" then inr [xe2; x0f; x0d]
       else inl FileNotFoundError;
     gzip_pickle_load := fun _ => inl FileNotFoundError;
     open_write := fun _ => None;
     same_file := String.eqb;
     encode_fault := fun _ _ => NoFault |}.

Definition seed_args : args :=
  {| db := "dedupe_main.db"; seed := Some "corpus/*.txt"; input := None;
     decode := None; output := None |}.

Definition decode_args : args :=
  {| db := "dedupe_main.db"; seed := None; input := None;
     decode := Some "out.bin"; output := None |}.

(** Unfolding of the monadic operations. *)
Ltac run :=
  unfold mbind, M_bind, mret, M_ret, print, print_all, get_store, set_store,
    write_file, write_blob, sys_exit, raise in *;
  cbn [fst snd store stdout files blobs] in *.

(** Case analysis on membership in an explicit list. *)
Ltac elem_cases H :=
  repeat (apply elem_of_cons in H as [->|H]);
  try (apply elem_of_nil in H; contradiction).

(** ** The [hashlib] library: SHA-256

    [hashlib.sha256(data)] as the sibling tool uses it: [digest] is the
    32-byte value, [hexdigest] its 64 hexadecimal digits. *)

Module hashlib.

Definition K : list Z :=
  [ 1116352408; 1899447441; 3049323471; 3921009573;
    961987163; 1508970993; 2453635748; 2870763221;
    3624381080; 310598401; 607225278; 1426881987;
    1925078388; 2162078206; 2614888103; 3248222580;
    3835390401; 4022224774; 264347078; 604807628;
    770255983; 1249150122; 1555081692; 1996064986;
    2554220882; 2821834349; 2952996808; 3210313671;
    3336571891; 3584528711; 113926993; 338241895;
    666307205; 773529912; 1294757372; 1396182291;
    1695183700; 1986661051; 2177026350; 2456956037;
    2730485921; 2820302411; 3259730800; 3345764771;
    3516065817; 3600352804; 4094571909; 275423344;
    430227734; 506948616; 659060556; 883997877;
    958139571; 1322822218; 1537002063; 1747873779;
    1955562222; 2024104815; 2227730452; 2361852424;
    2428436474; 2756734187; 3204031479; 3329325298 ].

Definition state : Type := (Z * Z * Z * Z * Z * Z * Z * Z)%type.

Definition H0 : state :=
  (1779033703, 3144134277, 1013904242, 2773480762,
   1359893119, 2600822924, 528734635, 1541459225).

Definition add32 (x y : Z) : Z := xxhash.wrap32 (x + y).

Definition rotr32 (x : Z) (n : Z) : Z :=
  xxhash.wrap32 (Z.lor (Z.shiftr x n) (Z.shiftl x (32 - n))).

Definition ch (x y z : Z) : Z :=
  Z.lxor (Z.land x y) (Z.land (Z.lxor x 4294967295) z).

Definition maj (x y z : Z) : Z :=
  Z.lxor (Z.lxor (Z.land x y) (Z.land x z)) (Z.land y z).

Definition big_sigma0 (x : Z) : Z :=
  Z.lxor (Z.lxor (rotr32 x 2) (rotr32 x 13)) (rotr32 x 22).

Definition big_sigma1 (x : Z) : Z :=
  Z.lxor (Z.lxor (rotr32 x 6) (rotr32 x 11)) (rotr32 x 25).

Definition small_sigma0 (x : Z) : Z :=
  Z.lxor (Z.lxor (rotr32 x 7) (rotr32 x 18)) (Z.shiftr x 3).

Definition small_sigma1 (x : Z) : Z :=
  Z.lxor (Z.lxor (rotr32 x 17) (rotr32 x 19)) (Z.shiftr x 10).

(** The 32-bit big-endian words of a block. *)
Fixpoint words (block : list byte) : list Z :=
  match block with
  | b0 :: b1 :: b2 :: b3 :: rest =>
      (Z.shiftl (Bytes.to_Z b0) 24 + Z.shiftl (Bytes.to_Z b1) 16
       + Z.shiftl (Bytes.to_Z b2) 8 + Bytes.to_Z b3) :: words rest
  | _ => []
  end.

(** The message schedule: [n] more words after those of [ws]. *)
Fixpoint schedule (n : nat) (ws : list Z) : list Z :=
  match n with
  | O => ws
  | S n' =>
      let i := length ws in
      let at_ (k : nat) := nth (i - k) ws 0 in
      schedule n'
        (ws ++ [add32 (add32 (small_sigma1 (at_ 2%nat)) (at_ 7%nat))
                      (add32 (small_sigma0 (at_ 15%nat)) (at_ 16%nat))])
  end.

Definition round (s : state) (kw : Z * Z) : state :=
  let '(a, b, c, d, e, f, g, h) := s in
  let t1 :=
    add32 (add32 (add32 h (big_sigma1 e)) (ch e f g))
          (add32 (fst kw) (snd kw)) in
  let t2 := add32 (big_sigma0 a) (maj a b c) in
  (add32 t1 t2, a, b, c, add32 d t1, e, f, g).

Definition compress (s : state) (block : list byte) : state :=
  let '(a, b, c, d, e, f, g, h) := s in
  let '(a', b', c', d', e', f', g', h') :=
    fold_left round (combine K (schedule 48 (words block))) s in
  (add32 a a', add32 b b', add32 c c', add32 d d',
   add32 e e', add32 f f', add32 g g', add32 h h').

Fixpoint blocks (fuel : nat) (s : state) (data : list byte) : state :=
  match fuel, data with
  | S fuel', _ :: _ => blocks fuel' (compress s (firstn 64 data)) (skipn 64 data)
  | _, _ => s
  end.

Definition be32 (x : Z) : list byte :=
  [ Bytes.of_Z (Z.shiftr x 24); Bytes.of_Z (Z.shiftr x 16);
    Bytes.of_Z (Z.shiftr x 8); Bytes.of_Z x ].

(** The message, the byte 0x80, zeros up to 56 modulo 64, and the length
    in bits as eight big-endian bytes. *)
Definition pad (data : list byte) : list byte :=
  let len := Z.of_nat (length data) in
  data ++ [x80]
  ++ repeat x00 (Z.to_nat ((55 - len) mod 64))
  ++ be32 (Z.shiftr (8 * len) 32) ++ be32 (8 * len).

Definition sha256 (data : list byte) : list byte :=
  let padded := pad data in
  let '(a, b, c, d, e, f, g, h) := blocks (length padded) H0 padded in
  be32 a ++ be32 b ++ be32 c ++ be32 d
  ++ be32 e ++ be32 f ++ be32 g ++ be32 h.

Definition sha256_hexdigest (data : list byte) : string :=
  Bytes.hex (sha256 data).

End hashlib.

(** ** More of Python's strings and bytes *)

(** [s[n:]] for a string. *)
Fixpoint slice_from (n : nat) (s : string) : string :=
  match n, s with
  | O, _ => s
  | S _, EmptyString => EmptyString
  | S n', String _ rest => slice_from n' rest
  end.

(** Value of a hexadecimal digit of either case. *)
Definition hex_value (c : ascii) : option N :=
  let n := N_of_ascii c in
  if ((48 <=? n) && (n <=? 57))%N then Some (n - 48)%N
  else if ((97 <=? n) && (n <=? 102))%N then Some (n - 87)%N
  else if ((65 <=? n) && (n <=? 70))%N then Some (n - 55)%N
  else None.

(** [bytes.fromhex(s)]: two digits per byte, ASCII white space skipped
    before a byte; [None] stands for the [ValueError] it raises. *)
Fixpoint bytes_fromhex (s : string) : option (list byte) :=
  match s with
  | EmptyString => Some []
  | String c rest =>
      if is_space c then bytes_fromhex rest
      else
        match rest with
        | String c' rest' =>
            match hex_value c, hex_value c' with
            | Some top, Some bot =>
                match bytes_fromhex rest' with
                | Some bs => Some (Bytes.of_Z (Z.of_N (16 * top + bot)) :: bs)
                | None => None
                end
            | _, _ => None
            end
        | EmptyString => None
        end
  end.

(** ** The sibling tool [collision_dedup_cli.py]: hashing, encoding,
    decoding and [main]

    [str.strip] and [str.lower] stay parameters; the hash is the real one. *)

Module CollisionMain.

(** What these parts print: the messages of the parts modelled above, and
    one constructor per further [print] call. *)
Inductive said : Type :=
| Old (p : printed)
| Processed (input_file_path : string) (new_lines_count : nat)
| HashesWritten (output_file_path : string)
| ErrorInputNotFound (input_file_path : string)
| ErrorProcessingFile (e : exn)
| ErrorOutputRequired
| Deduplicating (input_file output_file db_path : string)
| Decoding (hash_file db_path : string)
| Blank                                   (* print() *)
| Text (original_string : string)         (* print(original_string) *)
| WarnFormat
| WarnNotFound (hash_value : string)
| ErrorHashFileNotFound (hash_file : string)
| ErrorDecoding (e : exn).

Definition render_said (m : said) : string :=
  match m with
  | Old p => render p
  | Processed input_file_path n =>
      "Processed " +:+ input_file_path +:+ ". Added " +:+ pretty n
      +:+ " new unique lines to the store."
  | HashesWritten output_file_path =>
      "Hashes of all non-empty content written to " +:+ output_file_path
      +:+ " in compact binary format."
  | ErrorInputNotFound input_file_path =>
      "Error: Input file not found at " +:+ input_file_path
  | ErrorProcessingFile e => "Error processing file: " +:+ exn_name e
  | ErrorOutputRequired => "Error: --output is required when using --input."
  | Deduplicating input_file output_file db_path =>
      "Deduplicating input file '" +:+ input_file +:+ "' to output file '"
      +:+ output_file +:+ "' using database '" +:+ db_path +:+ "'"
  | Decoding hash_file db_path =>
      "Decoding binary hashes from '" +:+ hash_file +:+ "' using database '"
      +:+ db_path +:+ "'"
  | Blank => EmptyString
  | Text original_string => original_string
  | WarnFormat =>
      "Warning: Unexpected file format. Hash length is not 4 bytes."
  | WarnNotFound hash_value =>
      "Warning: Hash '" +:+ hash_value +:+ "' not found in the database."
  | ErrorHashFileNotFound hash_file =>
      "Error: Hash file not found at " +:+ hash_file
  | ErrorDecoding e => "An error occurred while decoding: " +:+ exn_name e
  end.

(** The lines of reconstructed text among what was printed. *)
Definition said_line (m : said) : option string :=
  match m with
  | Blank => Some EmptyString
  | Text original_string => Some original_string
  | _ => None
  end.

Definition said_lines (out : list said) : list string := omap said_line out.

(** The process, with the larger vocabulary on its standard output. *)
Record cprocess : Type := {
  c_store : gmap string string;
  c_stdout : list said;
  c_files : list (string * list byte);
  c_blobs : list (string * gmap string string)
}.

Definition c_initial : cprocess :=
  {| c_store := ∅; c_stdout := []; c_files := []; c_blobs := [] |}.

Definition C (A : Type) : Type := cprocess -> outcome A * cprocess.

#[global] Instance C_ret : MRet C := fun A (a : A) q => (Returns a, q).

#[global] Instance C_bind : MBind C :=
  fun A B (k : A -> C B) (m : C A) q =>
    match m q with
    | (Returns a, q') => k a q'
    | (Exits n, q') => (Exits n, q')
    | (Raises e, q') => (Raises e, q')
    end.

(** A computation of the parts modelled above, run in this process: what
    it prints is appended to the standard output. *)
Definition lift {A} (m : M A) : C A := fun q =>
  let r := m {| store := c_store q; stdout := [];
                files := c_files q; blobs := c_blobs q |} in
  (fst r,
   {| c_store := store (snd r);
      c_stdout := c_stdout q ++ map Old (stdout (snd r));
      c_files := files (snd r); c_blobs := blobs (snd r) |}).

Definition say (m : said) : C unit := fun q =>
  (Returns tt,
   {| c_store := c_store q; c_stdout := c_stdout q ++ [m];
      c_files := c_files q; c_blobs := c_blobs q |}).

Definition say_all (ms : list said) : C unit := fun q =>
  (Returns tt,
   {| c_store := c_store q; c_stdout := c_stdout q ++ ms;
      c_files := c_files q; c_blobs := c_blobs q |}).

Definition c_exit {A} (status : Z) : C A := fun q => (Exits status, q).
Definition c_raise {A} (e : exn) : C A := fun q => (Raises e, q).

Definition c_exit_status {A} (r : outcome A * cprocess) : Z :=
  match fst r with
  | Returns _ => 0
  | Exits n => n
  | Raises _ => 1
  end.

Section Tool.

Variable strip : string -> string.
Variable lower : string -> string.
Variable w : os.

(** [_generate_hash]: the hexadecimal SHA-256 digest of the normalized
    text, from its seventeenth digit on. *)
Definition _generate_hash (text : string) : string :=
  let normalized_text := lower (strip text) in
  slice_from 16 (hashlib.sha256_hexdigest (Bytes.of_string normalized_text)).

(** [HashStore.get_string_by_hash]: [dict.get]. *)
Definition get_string_by_hash (items : gmap string string)
    (item_hash : string) : option string :=
  items !! item_hash.

(** One turn of the loop of [process_file]. State: dictionary, bytes
    written to [outfile], [new_lines_count], printed warnings. The left
    result is the state at which [bytes.fromhex] raised. *)
Definition encode_line
    (st : gmap string string * list byte * nat * list printed)
    (line : string)
  : (gmap string string * list byte * nat * list printed)
    + (gmap string string * list byte * nat * list printed) :=
  let '(items, outfile, new_lines_count, out) := st in
  let stripped_line := strip line in
  if negb (truthy stripped_line) then
    inr (items, outfile ++ [x00], new_lines_count, out)
  else
    let line_hash := _generate_hash stripped_line in
    let '(items', is_new, warn) :=
      CollisionCli.add_item items line_hash stripped_line in
    let new_lines_count :=
      if is_new then S new_lines_count else new_lines_count in
    match bytes_fromhex line_hash with
    | Some record =>
        inr (items', outfile ++ record, new_lines_count, out ++ warn)
    | None => inl (items', outfile, new_lines_count, out ++ warn)
    end.

Fixpoint encode_loop (infile : list string)
    (st : gmap string string * list byte * nat * list printed)
  : (gmap string string * list byte * nat * list printed)
    + (gmap string string * list byte * nat * list printed) :=
  match infile with
  | [] => inr st
  | line :: rest =>
      match encode_line st line with
      | inr st' => encode_loop rest st'
      | inl st' => inl st'
      end
  end.

Definition process_file (input_file_path output_file_path : string)
  : C unit :=
  let handler (e : exn) : C unit :=
    match e with
    | FileNotFoundError => say (ErrorInputNotFound input_file_path)
    | _ => if is_IOError e then say (ErrorProcessingFile e) else c_raise e
    end in
  match open_text w input_file_path with
  | inl e => handler e
  | inr infile =>
      match open_write w output_file_path with
      | Some e => handler e
      | None =>
          fun q =>
            match encode_loop infile (c_store q, [], 0%nat, []) with
            | inr (items, outfile, new_lines_count, out) =>
                (Returns tt,
                 {| c_store := items;
                    c_stdout :=
                      c_stdout q ++ map Old out
                      ++ [Processed input_file_path new_lines_count;
                          HashesWritten output_file_path];
                    c_files := c_files q ++ [(output_file_path, outfile)];
                    c_blobs := c_blobs q |})
            | inl (items, outfile, _, out) =>
                (Raises OtherException,             (* ValueError *)
                 {| c_store := items;
                    c_stdout := c_stdout q ++ map Old out;
                    c_files := c_files q ++ [(output_file_path, outfile)];
                    c_blobs := c_blobs q |})
            end
      end
  end.

(** The loop of the decode action over the bytes that remain in [f]. *)
Fixpoint decode_loop (items : gmap string string) (f : list byte)
  : list said :=
  match f with
  | [] => []
  | marker_byte :: after1 =>
      if Byte.eqb marker_byte x00 then Blank :: decode_loop items after1
      else
        match after1 with
        | b1 :: b2 :: b3 :: after4 =>
            let hash_value := Bytes.hex [marker_byte; b1; b2; b3] in
            match get_string_by_hash items hash_value with
            | Some original_string =>
                if truthy original_string then Text original_string
                else WarnNotFound hash_value
            | None => WarnNotFound hash_value
            end :: decode_loop items after4
        | _ => [WarnFormat]
        end
  end.

(** [HashStore(db_path)]. *)
Definition new_store (db_path : string) : C unit :=
  lift (set_store ∅ ;; CollisionCli._load_store w db_path).

Definition main_input (db_path input_file : string)
    (output : option string) : C unit :=
  match given output with
  | None => say ErrorOutputRequired ;; c_exit 1
  | Some output_file =>
      say (Deduplicating input_file output_file db_path) ;;
      new_store db_path ;;
      process_file input_file output_file ;;
      lift (CollisionCli.save_store w db_path)
  end.

Definition main_decode (db_path hash_file : string) : C unit :=
  say (Decoding hash_file db_path) ;;
  new_store db_path ;;
  match open_binary w hash_file with
  | inr f => fun q => say_all (decode_loop (c_store q) f) q
  | inl e =>
      say (match e with
           | FileNotFoundError => ErrorHashFileNotFound hash_file
           | _ => ErrorDecoding e
           end) ;;
      c_exit 1
  end.

(** [main]. The parser gives [--output] and [--db] their defaults. *)
Definition main (a : args) : C unit :=
  match given (seed a) with
  | Some glob_pattern =>
      lift (CollisionCli.main_seed _generate_hash strip w (db a) glob_pattern)
  | None =>
      match given (input a) with
      | Some input_file =>
          main_input (db a) input_file
            (Some (default "deduplicated_output.txt" (output a)))
      | None =>
          match given (decode a) with
          | Some hash_file => main_decode (db a) hash_file
          | None => mret tt                        (* parser.print_help() *)
          end
      end
  end.

End Tool.
End CollisionMain.

(** ** More sample worlds *)

(** The input file "in.txt" holds the three lines "foo", blank, "bar";
    there is no store file yet. *)
Definition os_encode_run : os :=
  {| path_exists := fun p => String.eqb p "in.txt";
     glob_glob := fun _ _ => [];
     open_text := fun p =>
       if String.eqb p "in.txt"
       then inr [terminated "foo"; terminated EmptyString; terminated "bar"]
       else inl FileNotFoundError;
     open_binary := fun _ => inl FileNotFoundError;
     gzip_pickle_load := fun _ => inl FileNotFoundError;
     open_write := fun _ => None;
     same_file := String.eqb;
     encode_fault := fun _ _ => NoFault |}.

(** The same input on a disk that fills up: the third write to the output
    file raises an [IOError]. *)
Definition os_encode_disk_full : os :=
  {| path_exists := fun p => String.eqb p "in.txt";
     glob_glob := fun _ _ => [];
     open_text := fun p =>
       if String.eqb p "in.txt"
       then inr [terminated "foo"; terminated EmptyString; terminated "bar"]
       else inl FileNotFoundError;
     open_binary := fun _ => inl FileNotFoundError;
     gzip_pickle_load := fun _ => inl FileNotFoundError;
     open_write := fun _ => None;
     same_file := String.eqb;
     encode_fault := fun _ _ => WriteFault 2 OSError |}.

(** The world after that run: "out.bin" and the store file hold what the
    run wrote. *)
Definition os_decode_run : os :=
  {| path_exists := fun p =>
       String.eqb p "out.bin" || String.eqb p "dedupe_main.db";
     glob_glob := fun _ _ => [];
     open_text := fun _ => inl FileNotFoundError;
     open_binary := fun p =>
       if String.eqb p "out.bin"
       then inr [xe2; x0f; x0d; xd9; x00; x41; xa2; x2b; x2c]
       else inl FileNotFoundError;
     gzip_pickle_load := fun p =>
       if String.eqb p "dedupe_main.db"
       then inr (<["e20f0dd9" := "foo"]> (<["41a22b2c" := "bar"]> ∅))
       else inl FileNotFoundError;
     open_write := fun _ => None;
     same_file := String.eqb;
     encode_fault := fun _ _ => NoFault |}.

(** Three files match "corpus/*.txt"; the second cannot be opened. *)
Definition os_seed_run : os :=
  {| path_exists := fun _ => false;
     glob_glob := fun p _ =>
       if String.eqb p "corpus/*.txt"
       then ["corpus/a.txt"; "corpus/gone.txt"; "corpus/b.txt"]
       else [];
     open_text := fun p =>
       if String.eqb p "corpus/a.txt"
       then inr [terminated "alpha"; terminated "beta"; terminated "alpha"]
       else if String.eqb p "corpus/b.txt"
       then inr [terminated "beta"; terminated EmptyString; "gamma"]
       else inl FileNotFoundError;
     open_binary := fun _ => inl FileNotFoundError;
     gzip_pickle_load := fun _ => inl FileNotFoundError;
     open_write := fun _ => None;
     same_file := String.eqb;
     encode_fault := fun _ _ => NoFault |}.

(** Whether [open(filepath, 'r')] succeeds. *)
Definition readable (w : os) (filepath : string) : bool :=
  match open_text w filepath with
  | inr _ => true
  | inl _ => false
  end.

(** The command lines of an encode run and of a decode run. *)
Definition encode_args_of (db_path input_file output_file : string) : args :=
  {| db := db_path; seed := None; input := Some input_file;
     decode := None; output := Some output_file |}.

Definition decode_args_of (db_path hash_file : string) : args :=
  {| db := db_path; seed := None; input := None;
     decode := Some hash_file; output := None |}.


(** ** [str.strip] and [str.lower] on ASCII text

    Instances of the two parameters of the sibling tool, for text made of
    ASCII characters. *)

(** [str.isspace] on an ASCII character. *)
Definition ascii_isspace (c : ascii) : bool :=
  let n := N_of_ascii c in
  ((9 <=? n) && (n <=? 13) || (28 <=? n) && (n <=? 32))%N.

Fixpoint ascii_lstrip (s : string) : string :=
  match s with
  | EmptyString => EmptyString
  | String c rest => if ascii_isspace c then ascii_lstrip rest else s
  end.

Fixpoint ascii_rstrip (s : string) : string :=
  match s with
  | EmptyString => EmptyString
  | String c rest =>
      match ascii_rstrip rest with
      | EmptyString => if ascii_isspace c then EmptyString
                       else String c EmptyString
      | r => String c r
      end
  end.

Definition ascii_strip (s : string) : string := ascii_rstrip (ascii_lstrip s).

Definition ascii_lower_char (c : ascii) : ascii :=
  let n := N_of_ascii c in
  if ((65 <=? n) && (n <=? 90))%N then ascii_of_N (n + 32) else c.

Fixpoint ascii_lower (s : string) : string :=
  match s with
  | EmptyString => EmptyString
  | String c rest => String (ascii_lower_char c) (ascii_lower rest)
  end.

(** * Properties *)

(** ** The hash library *)

Example xxh32_empty :
  xxhash.hexdigest (xxhash.xxh32_new EmptyString 0) = "02cc5d05".
Proof. vm_compute. reflexivity. Qed.

Example xxh32_spam :
  xxhash.hexdigest
    (xxhash.xxh32_new "Nobody inspects the spammish repetition" 0)
  = "e2293b2f".
Proof. vm_compute. reflexivity. Qed.

Example xxh32_a : xxhash.intdigest (xxhash.xxh32_new "a" 0) = 1426945110.
Proof. vm_compute. reflexivity. Qed.

Lemma fromhex2_hex (b : byte) :
  Bytes.fromhex2 (Bytes.hex_digit (N.div (Byte.to_N b) 16))
                 (Bytes.hex_digit (N.modulo (Byte.to_N b) 16)) = b.
Proof. destruct b; reflexivity. Qed.

Lemma hex_inj (bs1 bs2 : list byte) :
  Bytes.hex bs1 = Bytes.hex bs2 -> bs1 = bs2.
Proof.
  revert bs2. induction bs1 as [|b1 bs1 IH]; intros [|b2 bs2] E;
    simpl in E; try discriminate; [reflexivity|].
  injection E as Ehi Elo Erest.
  f_equal; [|auto].
  rewrite <- (fromhex2_hex b1), <- (fromhex2_hex b2), Ehi, Elo.
  reflexivity.
Qed.

Lemma digest_length (h : xxhash.xxh32) : length (xxhash.digest h) = 4%nat.
Proof. reflexivity. Qed.

Lemma hexdigest_inj (h1 h2 : xxhash.xxh32) :
  xxhash.hexdigest h1 = xxhash.hexdigest h2 ->
  xxhash.digest h1 = xxhash.digest h2.
Proof. apply hex_inj. Qed.

(** ** Stripping and printing *)

Example rstrip_nl_terminator :
  rstrip_nl (terminated "foo") = "foo"
  /\ rstrip_nl (terminated (terminated "foo")) = "foo"
  /\ rstrip_nl (terminated EmptyString) = EmptyString
  /\ rstrip_nl (String newline "foo") = String newline "foo"
  /\ rstrip_nl (terminated "  ") = "  ".
Proof. repeat split; reflexivity. Qed.

Example render_collision :
  render (WarnCollision "0b1af42c" "cat" "dog")
  = "Warning: Hash collision detected for hex '0b1af42c'. Original: 'cat', New: 'dog'. New item ignored.".
Proof. reflexivity. Qed.

Example render_counts :
  map render [TotalLines 3; NewUniqueLines 2]
  = ["Total lines processed: 3"; "New unique lines added to store: 2"].
Proof. vm_compute. reflexivity. Qed.

(** ** The decoding loop *)

Lemma byte_eqb_x00 (b : byte) : b <> x00 -> Byte.eqb b x00 = false.
Proof.
  intros Hne. destruct (Byte.eqb b x00) eqn:E; [|reflexivity].
  apply Byte.byte_dec_bl in E. contradiction.
Qed.

Lemma decode_loop_blank store rest :
  decode_loop store (x00 :: rest) = BlankLine :: decode_loop store rest.
Proof. reflexivity. Qed.

Lemma decode_loop_hash store b0 b1 b2 b3 rest :
  b0 <> x00 ->
  decode_loop store (b0 :: b1 :: b2 :: b3 :: rest)
  = decode_hash store [b0; b1; b2; b3] :: decode_loop store rest.
Proof.
  intros Hne. cbn [decode_loop]. rewrite (byte_eqb_x00 _ Hne). reflexivity.
Qed.

Lemma decode_loop_short store b0 tail :
  b0 <> x00 -> (length tail < 3)%nat ->
  decode_loop store (b0 :: tail) = [WarnIncomplete].
Proof.
  intros Hne Hlen. cbn [decode_loop]. rewrite (byte_eqb_x00 _ Hne).
  destruct tail as [|b1 [|b2 [|b3 rest]]]; try reflexivity.
  simpl in Hlen. lia.
Qed.

(** Induction along the records of a stream, the way the decoder frames
    them. *)
Lemma records_ind (P : list byte -> Prop) :
  P [] ->
  (forall rest, P rest -> P (x00 :: rest)) ->
  (forall b0 b1 b2 b3 rest,
      b0 <> x00 -> P rest -> P (b0 :: b1 :: b2 :: b3 :: rest)) ->
  (forall b0 tail, b0 <> x00 -> (length tail < 3)%nat -> P (b0 :: tail)) ->
  forall infile, P infile.
Proof.
  intros Hnil Hblank Hhash Hshort infile.
  remember (length infile) as n eqn:Hn. revert infile Hn.
  induction n as [n IH] using lt_wf_ind. intros infile Hn.
  destruct infile as [|b0 after1]; [exact Hnil|].
  destruct (Byte.eqb b0 x00) eqn:E.
  - apply Byte.byte_dec_bl in E. subst b0.
    apply Hblank. apply (IH (length after1)); [simpl in Hn; lia | reflexivity].
  - assert (b0 <> x00) as Hne.
    { intros ->. rewrite Byte.byte_dec_lb in E by reflexivity. discriminate. }
    destruct after1 as [|b1 [|b2 [|b3 after4]]];
      try (apply Hshort; [exact Hne | simpl; lia]).
    apply Hhash; [exact Hne|].
    apply (IH (length after4)); [simpl in Hn; lia | reflexivity].
Qed.

Lemma decode_loop_app store pre rest :
  complete_records pre = true ->
  decode_loop store (pre ++ rest)
  = decode_loop store pre ++ decode_loop store rest.
Proof.
  induction pre as [|pre IH|b0 b1 b2 b3 pre Hne IH|b0 tail Hne Hlen]
    using records_ind; intros Hc.
  - reflexivity.
  - cbn [app]. rewrite !decode_loop_blank. cbn [app]. f_equal. apply IH.
    exact Hc.
  - cbn [app]. rewrite !decode_loop_hash by exact Hne. cbn [app]. f_equal.
    apply IH. cbn [complete_records] in Hc.
    rewrite (byte_eqb_x00 _ Hne) in Hc. exact Hc.
  - exfalso. cbn [complete_records] in Hc. rewrite (byte_eqb_x00 _ Hne) in Hc.
    destruct tail as [|b1 [|b2 [|b3 rest']]]; try discriminate.
    simpl in Hlen. lia.
Qed.

Lemma output_lines_app out1 out2 :
  output_lines (out1 ++ out2) = output_lines out1 ++ output_lines out2.
Proof. unfold output_lines. apply omap_app. Qed.

(** C4: when the decoder reads a non-marker byte at a record boundary and
    fewer than three bytes follow, it reports the incomplete block and
    stops: nothing is printed for the partial record, and everything
    printed for the earlier records stays. *)
Theorem decode_truncated_record
    (store : gmap string string) (pre : list byte) (chunk : byte)
    (tail : list byte) :
  complete_records pre = true ->
  chunk <> x00 ->
  (length tail < 3)%nat ->
  decode_loop store (pre ++ chunk :: tail)
  = decode_loop store pre ++ [WarnIncomplete]
  /\ output_lines (decode_loop store (pre ++ chunk :: tail))
     = output_lines (decode_loop store pre).
Proof.
  intros Hc Hne Hlen.
  assert (decode_loop store (pre ++ chunk :: tail)
          = decode_loop store pre ++ [WarnIncomplete]) as E.
  { rewrite decode_loop_app by exact Hc.
    rewrite (decode_loop_short _ _ _ Hne Hlen). reflexivity. }
  split; [exact E|].
  rewrite E, output_lines_app. cbn. apply app_nil_r.
Qed.

Lemma decode_truncated_record_witness :
  complete_records [xe2; x0f; x0d; xd9; x00] = true
  /\ x41 <> x00
  /\ (length [xa2; x2b] < 3)%nat
  /\ decode_loop (<["e20f0dd9" := "foo"]> ∅)
       ([xe2; x0f; x0d; xd9; x00] ++ x41 :: [xa2; x2b])
     = [TextLine "foo"; BlankLine; WarnIncomplete].
Proof.
  assert (complete_records [xe2; x0f; x0d; xd9; x00] = true) as H1
    by reflexivity.
  assert (x41 <> x00) as H2 by discriminate.
  assert (length [xa2; x2b] < 3)%nat as H3 by (simpl; lia).
  split; [exact H1|]. split; [exact H2|]. split; [exact H3|].
  exact (proj1 (decode_truncated_record (<["e20f0dd9" := "foo"]> ∅)
                  [xe2; x0f; x0d; xd9; x00] x41 [xa2; x2b] H1 H2 H3)).
Defined.

(** C8: a complete four-byte record whose hash the store does not hold
    prints a warning naming that hash and no line, and decoding goes on:
    the records before and after it decode as they do on their own. *)
Theorem decode_missing_hash
    (store : gmap string string) (pre : list byte) (b0 b1 b2 b3 : byte)
    (rest : list byte) :
  complete_records pre = true ->
  b0 <> x00 ->
  store !! Bytes.hex [b0; b1; b2; b3] = None ->
  decode_loop store (pre ++ [b0; b1; b2; b3] ++ rest)
  = decode_loop store pre
    ++ [WarnHashNotFound (Bytes.hex [b0; b1; b2; b3])]
    ++ decode_loop store rest
  /\ output_lines (decode_loop store (pre ++ [b0; b1; b2; b3] ++ rest))
     = output_lines (decode_loop store pre)
       ++ output_lines (decode_loop store rest).
Proof.
  intros Hc Hne Hnone.
  assert (decode_loop store (pre ++ [b0; b1; b2; b3] ++ rest)
          = decode_loop store pre
            ++ [WarnHashNotFound (Bytes.hex [b0; b1; b2; b3])]
            ++ decode_loop store rest) as E.
  { rewrite decode_loop_app by exact Hc. f_equal.
    cbn [app]. rewrite decode_loop_hash by exact Hne.
    unfold decode_hash. rewrite Hnone. reflexivity. }
  split; [exact E|].
  rewrite E, !output_lines_app. reflexivity.
Qed.

Lemma decode_missing_hash_witness :
  complete_records [xe2; x0f; x0d; xd9] = true
  /\ x41 <> x00
  /\ (<["e20f0dd9" := "foo"]> ∅ : gmap string string)
       !! Bytes.hex [x41; xa2; x2b; x2c] = None
  /\ decode_loop (<["e20f0dd9" := "foo"]> ∅)
       ([xe2; x0f; x0d; xd9] ++ [x41; xa2; x2b; x2c]
        ++ [x00; xe2; x0f; x0d; xd9])
     = [TextLine "foo"; WarnHashNotFound "41a22b2c"; BlankLine;
        TextLine "foo"].
Proof.
  assert (complete_records [xe2; x0f; x0d; xd9] = true) as H1 by reflexivity.
  assert (x41 <> x00) as H2 by discriminate.
  assert ((<["e20f0dd9" := "foo"]> ∅ : gmap string string)
            !! Bytes.hex [x41; xa2; x2b; x2c] = None) as H3
    by (vm_compute; reflexivity).
  split; [exact H1|]. split; [exact H2|]. split; [exact H3|].
  exact (proj1 (decode_missing_hash (<["e20f0dd9" := "foo"]> ∅)
                  [xe2; x0f; x0d; xd9] x41 xa2 x2b x2c
                  [x00; xe2; x0f; x0d; xd9] H1 H2 H3)).
Defined.

(** ** Insertion and collisions *)

Lemma add_item_new store h text :
  store !! xxhash.hexdigest h = None ->
  HashStore.add_item store h text
  = (<[xxhash.hexdigest h := text]> store, true, []).
Proof. intros E. unfold HashStore.add_item. rewrite E. reflexivity. Qed.

Lemma add_item_duplicate store h text :
  store !! xxhash.hexdigest h = Some text ->
  HashStore.add_item store h text = (store, false, []).
Proof.
  intros E. unfold HashStore.add_item. rewrite E, String.eqb_refl.
  reflexivity.
Qed.

Lemma add_item_collision store h existing text :
  store !! xxhash.hexdigest h = Some existing ->
  existing <> text ->
  HashStore.add_item store h text
  = (store, false, [WarnCollision (xxhash.hexdigest h) existing text]).
Proof.
  intros E Hne. unfold HashStore.add_item. rewrite E.
  apply String.eqb_neq in Hne. rewrite Hne. reflexivity.
Qed.

Lemma add_item_true_inv store h text store' out :
  HashStore.add_item store h text = (store', true, out) ->
  store !! xxhash.hexdigest h = None
  /\ store' = <[xxhash.hexdigest h := text]> store /\ out = [].
Proof.
  unfold HashStore.add_item.
  destruct (store !! xxhash.hexdigest h) as [existing|] eqn:E.
  - destruct (String.eqb existing text); intros [= _ Hf]; discriminate.
  - intros [= <- <-]. auto.
Qed.

Lemma decode_hash_digest store h :
  decode_hash store (xxhash.digest h)
  = match store !! xxhash.hexdigest h with
    | Some text => TextLine text
    | None => WarnHashNotFound (xxhash.hexdigest h)
    end.
Proof. reflexivity. Qed.

Lemma decode_loop_digest store h pre rest :
  complete_records pre = true ->
  first_byte (xxhash.digest h) <> x00 ->
  decode_loop store (pre ++ xxhash.digest h ++ rest)
  = decode_loop store pre
    ++ [decode_hash store (xxhash.digest h)] ++ decode_loop store rest.
Proof.
  intros Hc Hne. rewrite decode_loop_app by exact Hc. f_equal.
  unfold xxhash.digest in *. cbn [app first_byte hd] in *.
  rewrite decode_loop_hash by exact Hne. reflexivity.
Qed.

Lemma decode_loop_digest_head store h rest :
  first_byte (xxhash.digest h) <> x00 ->
  decode_loop store (xxhash.digest h ++ rest)
  = decode_hash store (xxhash.digest h) :: decode_loop store rest.
Proof. intros Hne. exact (decode_loop_digest store h [] rest eq_refl Hne). Qed.

(** C2, as the code has it: once [insert(h, l1)] has returned true,
    [insert(h, l2)] with a different line returns false, leaves the
    dictionary as it is (so [h] still maps to [l1]), and prints a warning
    that names the hash, the existing line and the rejected line, whatever
    the hash. When the first byte of [h] is not the marker 0x00, the decoder
    prints [l1], never [l2], for a reference to [h]: alone in a stream, and
    at any place of a stream where it follows complete records. *)
Theorem collision_keeps_first_line
    (store : gmap string string) (h : xxhash.xxh32) (l1 l2 : string)
    (store1 : gmap string string) (out1 : list printed) :
  HashStore.add_item store h l1 = (store1, true, out1) ->
  l1 <> l2 ->
  HashStore.add_item store1 h l2
  = (store1, false, [WarnCollision (xxhash.hexdigest h) l1 l2])
  /\ store1 !! xxhash.hexdigest h = Some l1
  /\ (first_byte (xxhash.digest h) <> x00 ->
      decode_loop store1 (xxhash.digest h) = [TextLine l1]
      /\ (TextLine l2 ∉ decode_loop store1 (xxhash.digest h))
      /\ forall pre rest, complete_records pre = true ->
           decode_loop store1 (pre ++ xxhash.digest h ++ rest)
           = decode_loop store1 pre
             ++ [TextLine l1] ++ decode_loop store1 rest).
Proof.
  intros Hadd Hne.
  destruct (add_item_true_inv _ _ _ _ _ Hadd) as (_ & -> & _).
  assert (<[xxhash.hexdigest h := l1]> store !! xxhash.hexdigest h = Some l1)
    as Hl by apply lookup_insert_eq.
  assert (decode_hash (<[xxhash.hexdigest h := l1]> store) (xxhash.digest h)
          = TextLine l1) as Hd.
  { rewrite decode_hash_digest, Hl. reflexivity. }
  split; [apply add_item_collision; assumption|].
  split; [exact Hl|].
  intros Hfirst.
  assert (decode_loop (<[xxhash.hexdigest h := l1]> store) (xxhash.digest h)
          = [TextLine l1]) as Hone.
  { pose proof (decode_loop_digest_head (<[xxhash.hexdigest h := l1]> store)
                  h [] Hfirst) as Hhead.
    rewrite app_nil_r, Hd in Hhead. exact Hhead. }
  split; [exact Hone|].
  split.
  - rewrite Hone. intros Hin. apply list_elem_of_singleton in Hin.
    congruence.
  - intros pre rest Hc.
    rewrite decode_loop_digest by assumption. rewrite Hd. reflexivity.
Qed.

(** The scenario of the specification: "cat" is stored under its hash
    0b1af42c, "dog" is then offered under the same hash and refused, and a
    reference to the hash decodes to "cat". *)
Lemma collision_keeps_first_line_witness :
  HashStore.add_item ∅ (xxh32_seed0 "cat") "cat"
  = (<["0b1af42c" := "cat"]> ∅, true, [])
  /\ "cat" <> "dog"
  /\ first_byte (xxhash.digest (xxh32_seed0 "cat")) <> x00
  /\ HashStore.add_item (<["0b1af42c" := "cat"]> ∅) (xxh32_seed0 "cat") "dog"
     = (<["0b1af42c" := "cat"]> ∅, false,
        [WarnCollision "0b1af42c" "cat" "dog"])
  /\ decode_loop (<["0b1af42c" := "cat"]> ∅) [x0b; x1a; xf4; x2c]
     = [TextLine "cat"].
Proof.
  assert (HashStore.add_item ∅ (xxh32_seed0 "cat") "cat"
          = (<["0b1af42c" := "cat"]> ∅, true, [])) as H1
    by (vm_compute; reflexivity).
  assert ("cat" <> "dog") as H2 by discriminate.
  assert (first_byte (xxhash.digest (xxh32_seed0 "cat")) <> x00) as H3
    by (vm_compute; discriminate).
  split; [exact H1|]. split; [exact H2|]. split; [exact H3|].
  pose proof (collision_keeps_first_line _ _ _ _ _ _ H1 H2) as (Ha & _ & Hd).
  split; [exact Ha | exact (proj1 (Hd H3))].
Defined.

(** C2 as stated fails at the decoder: "found" is stored under its hash
    00de9af9 and "dog" is refused under it, as claimed, but a reference to
    that hash starts with the marker byte, so decoding it prints a blank
    line and the warning for an incomplete record, never "found". *)
Lemma collision_decode_counterexample :
  HashStore.add_item ∅ (xxh32_seed0 "found") "found"
  = (<["00de9af9" := "found"]> ∅, true, [])
  /\ "found" <> "dog"
  /\ HashStore.add_item (<["00de9af9" := "found"]> ∅)
       (xxh32_seed0 "found") "dog"
     = (<["00de9af9" := "found"]> ∅, false,
        [WarnCollision "00de9af9" "found" "dog"])
  /\ <["00de9af9" := "found"]> (∅ : gmap string string) !! "00de9af9"
     = Some "found"
  /\ xxhash.digest (xxh32_seed0 "found") = [x00; xde; x9a; xf9]
  /\ decode_loop (<["00de9af9" := "found"]> ∅)
       (xxhash.digest (xxh32_seed0 "found"))
     = [BlankLine; WarnIncomplete]
  /\ (TextLine "found"
      ∉ decode_loop (<["00de9af9" := "found"]> ∅)
          (xxhash.digest (xxh32_seed0 "found"))).
Proof.
  assert (decode_loop (<["00de9af9" := "found"]> ∅)
            (xxhash.digest (xxh32_seed0 "found"))
          = [BlankLine; WarnIncomplete]) as Hd
    by (vm_compute; reflexivity).
  split; [vm_compute; reflexivity|].
  split; [discriminate|].
  split; [vm_compute; reflexivity|].
  split; [apply lookup_insert_eq|].
  split; [vm_compute; reflexivity|].
  split; [exact Hd|].
  rewrite Hd. intros Hin.
  apply elem_of_cons in Hin as [Hin|Hin]; [discriminate|].
  apply list_elem_of_singleton in Hin. discriminate.
Qed.

(** ** The encoding and seeding steps *)

Lemma truthy_true (s : string) : truthy s = true <-> s <> EmptyString.
Proof. destruct s; simpl; split; congruence. Qed.

Lemma add_item_total store h text :
  exists store' added warn,
    HashStore.add_item store h text = (store', added, warn).
Proof.
  destruct (HashStore.add_item store h text) as [[store' added] warn].
  eauto.
Qed.

Lemma encode_line_blank xxh32 store outfile out raw :
  rstrip_nl raw = EmptyString ->
  encode_line xxh32 (store, outfile, out) raw = (store, outfile ++ [x00], out).
Proof. intros E. unfold encode_line. rewrite E. reflexivity. Qed.

Lemma encode_line_text xxh32 store outfile out raw store' added warn :
  rstrip_nl raw <> EmptyString ->
  HashStore.add_item store (xxh32 (rstrip_nl raw)) (rstrip_nl raw)
  = (store', added, warn) ->
  encode_line xxh32 (store, outfile, out) raw
  = (store', outfile ++ xxhash.digest (xxh32 (rstrip_nl raw)), out ++ warn).
Proof.
  intros Hne Hadd. unfold encode_line.
  apply truthy_true in Hne. rewrite Hne, Hadd. reflexivity.
Qed.

Lemma seed_line_text xxh32 store unique total out raw store' added warn :
  rstrip_nl raw <> EmptyString ->
  HashStore.add_item store (xxh32 (rstrip_nl raw)) (rstrip_nl raw)
  = (store', added, warn) ->
  seed_line xxh32 (store, unique, total, out) raw
  = (store', (if added then S unique else unique), S total, out ++ warn).
Proof.
  intros Hne Hadd. unfold seed_line.
  apply truthy_true in Hne. rewrite Hne, Hadd. reflexivity.
Qed.

Lemma seed_line_blank xxh32 store unique total out raw :
  rstrip_nl raw = EmptyString ->
  seed_line xxh32 (store, unique, total, out) raw
  = (store, unique, S total, out).
Proof. intros E. unfold seed_line. rewrite E. reflexivity. Qed.

(** The bytes written depend on the lines alone, not on the dictionary. *)
Lemma encode_fold_stream xxh32 infile : forall store outfile out,
  snd (fst (fold_left (encode_line xxh32) infile (store, outfile, out)))
  = outfile
    ++ concat (map (fun raw => record_of xxh32 (rstrip_nl raw)) infile).
Proof.
  induction infile as [|raw infile IH]; intros store outfile out.
  - simpl. symmetry. apply app_nil_r.
  - cbn [fold_left map concat].
    destruct (rstrip_nl raw) as [|c line] eqn:E.
    + rewrite encode_line_blank by exact E. rewrite IH.
      unfold record_of. simpl. rewrite <- app_assoc. reflexivity.
    + destruct (add_item_total store (xxh32 (rstrip_nl raw)) (rstrip_nl raw))
        as (store' & added & warn & Hadd).
      assert (rstrip_nl raw <> EmptyString) as Hne by (rewrite E; discriminate).
      rewrite (encode_line_text _ _ _ _ _ _ _ _ Hne Hadd).
      rewrite IH, E. unfold record_of. cbn [truthy].
      rewrite <- app_assoc. reflexivity.
Qed.

Lemma encode_loop_stream xxh32 store infile :
  snd (fst (encode_loop xxh32 store infile))
  = concat (map (fun raw => record_of xxh32 (rstrip_nl raw)) infile).
Proof. unfold encode_loop. apply encode_fold_stream. Qed.



(** C10: a line that is only white space once its newline is stripped is
    not a blank line: encoding hashes it as it stands, offers it to the
    store and writes the four bytes of its hash, and seeding offers it to
    the store too; the one-byte marker is written exactly when the
    stripped line is empty. *)
Theorem whitespace_line_is_hashed
    (xxh32 : string -> xxhash.xxh32) (store : gmap string string)
    (outfile : list byte) (out : list printed) (unique total : nat)
    (raw : string) :
  whitespace_only (rstrip_nl raw) = true ->
  rstrip_nl raw <> EmptyString ->
  let line := rstrip_nl raw in
  (exists store' added warn,
      HashStore.add_item store (xxh32 line) line = (store', added, warn)
      /\ encode_line xxh32 (store, outfile, out) raw
         = (store', outfile ++ xxhash.digest (xxh32 line), out ++ warn)
      /\ seed_line xxh32 (store, unique, total, out) raw
         = (store', (if added then S unique else unique), S total,
            out ++ warn)
      /\ is_Some (store' !! xxhash.hexdigest (xxh32 line))
      /\ (store !! xxhash.hexdigest (xxh32 line) = None ->
          added = true /\ store' !! xxhash.hexdigest (xxh32 line) = Some line))
  /\ (forall raw',
        snd (fst (encode_line xxh32 (store, outfile, out) raw'))
        = outfile ++ [x00]
        <-> rstrip_nl raw' = EmptyString).
Proof.
  intros _ Hne line. split.
  - destruct (add_item_total store (xxh32 line) line)
      as (store' & added & warn & Hadd).
    exists store', added, warn.
    split; [exact Hadd|].
    split; [exact (encode_line_text _ _ _ _ _ _ _ _ Hne Hadd)|].
    split; [exact (seed_line_text _ _ _ _ _ _ _ _ _ Hne Hadd)|].
    split.
    + revert Hadd. unfold HashStore.add_item.
      destruct (store !! xxhash.hexdigest (xxh32 line)) as [existing|] eqn:E.
      * destruct (String.eqb existing line); intros [= <- _ _];
          rewrite E; eauto.
      * intros [= <- _ _]. rewrite lookup_insert_eq. eauto.
    + intros Hnone. rewrite (add_item_new _ _ _ Hnone) in Hadd.
      injection Hadd as <- <- _. split; [reflexivity|].
      apply lookup_insert_eq.
  - intros raw'. split.
    + intros Hbytes.
      destruct (rstrip_nl raw') as [|c rest] eqn:E; [reflexivity|].
      exfalso.
      destruct (add_item_total store (xxh32 (rstrip_nl raw')) (rstrip_nl raw'))
        as (store' & added & warn & Hadd).
      assert (rstrip_nl raw' <> EmptyString) as Hne'
        by (rewrite E; discriminate).
      rewrite (encode_line_text _ _ _ _ _ _ _ _ Hne' Hadd) in Hbytes.
      cbn [fst snd] in Hbytes. apply app_inv_head in Hbytes. discriminate.
    + intros E. rewrite encode_line_blank by exact E. reflexivity.
Qed.

Lemma whitespace_line_is_hashed_witness :
  let raw := String " " (String tab (String newline EmptyString)) in
  whitespace_only (rstrip_nl raw) = true
  /\ rstrip_nl raw = String " " (String tab EmptyString)
  /\ exists (store' : gmap string string) (added : bool)
            (warn : list printed),
       encode_line xxh32_seed0 (∅, [], []) raw
       = (store', [] ++ xxhash.digest (xxh32_seed0 (rstrip_nl raw)),
          [] ++ warn)
       /\ seed_line xxh32_seed0 (∅, 0%nat, 0%nat, []) raw
          = (store', (if added then 1%nat else 0%nat), 1%nat, [] ++ warn).
Proof.
  intros raw.
  assert (whitespace_only (rstrip_nl raw) = true) as Hw by reflexivity.
  assert (rstrip_nl raw <> EmptyString) as Hne by (vm_compute; discriminate).
  split; [exact Hw|]. split; [reflexivity|].
  destruct (whitespace_line_is_hashed xxh32_seed0 ∅ [] [] 0%nat 0%nat raw
              Hw Hne) as [(store' & added & warn & _ & He & Hs & _) _].
  exists store', added, warn. split; [exact He | exact Hs].
Defined.

(** ** Round trip *)

Lemma rstrip_nl_terminated (line : string) :
  no_newline line = true -> rstrip_nl (terminated line) = line.
Proof.
  induction line as [|c line IH]; intros Hnl; [reflexivity|].
  simpl in Hnl. apply andb_true_iff in Hnl as [Hc Hline].
  apply negb_true_iff in Hc.
  unfold terminated in *.
  change (rstrip_nl (String c (String.append line (String newline EmptyString)))
          = String c line).
  cbn [rstrip_nl]. rewrite (IH Hline), Hc. destruct line; reflexivity.
Qed.

Lemma map_rstrip_terminated (lines : list string) :
  Forall (fun l => no_newline l = true) lines ->
  map rstrip_nl (map terminated lines) = lines.
Proof.
  induction 1 as [|l rest Hl _ IH]; [reflexivity|].
  cbn [map]. rewrite rstrip_nl_terminated by exact Hl. f_equal. exact IH.
Qed.

Lemma output_lines_printed (lines : list string) :
  output_lines (map line_printed lines) = lines.
Proof.
  induction lines as [|l lines IH]; [reflexivity|].
  unfold output_lines in *. cbn [map omap list_omap].
  destruct l; cbn; rewrite IH; reflexivity.
Qed.

Section RoundTrip.

Variable xxh32 : string -> xxhash.xxh32.
Variable lines : list string.
Hypothesis Hdistinct : distinct_hashes xxh32 lines.

Lemma add_item_keeps store h text k v :
  store !! k = Some v ->
  fst (fst (HashStore.add_item store h text)) !! k = Some v.
Proof.
  intros Hk. unfold HashStore.add_item.
  destruct (store !! xxhash.hexdigest h) as [existing|] eqn:E.
  - destruct (String.eqb existing text); exact Hk.
  - cbn. rewrite lookup_insert_ne; [exact Hk|].
    intros Heq. rewrite Heq, Hk in E. discriminate.
Qed.

Lemma add_item_compatible store l :
  l ∈ lines -> l <> EmptyString ->
  compatible xxh32 lines store ->
  compatible xxh32 lines (fst (fst (HashStore.add_item store (xxh32 l) l)))
  /\ fst (fst (HashStore.add_item store (xxh32 l) l))
       !! xxhash.hexdigest (xxh32 l) = Some l.
Proof.
  intros Hin Hne Hcompat. unfold HashStore.add_item.
  destruct (store !! xxhash.hexdigest (xxh32 l)) as [existing|] eqn:E.
  - rewrite (Hcompat l existing Hin Hne E), String.eqb_refl. cbn.
    split; [exact Hcompat|].
    rewrite E. f_equal. eauto.
  - cbn. split; [|apply lookup_insert_eq].
    intros l' v Hin' Hne' Hv.
    destruct (decide (xxhash.hexdigest (xxh32 l) = xxhash.hexdigest (xxh32 l')))
      as [Heq|Hneq].
    + rewrite Heq, lookup_insert_eq in Hv. injection Hv as <-.
      apply Hdistinct; try assumption. apply hex_inj. exact Heq.
    + rewrite lookup_insert_ne in Hv by exact Hneq. eauto.
Qed.

(** The store after encoding a part of [lines]: still compatible, nothing
    already stored has changed, and every non-empty line encoded is now
    stored under its hash. *)
Lemma encode_fold_store (todo : list string) :
  Forall (fun l => no_newline l = true) todo ->
  (forall l, l ∈ todo -> l ∈ lines) ->
  forall store outfile out,
    compatible xxh32 lines store ->
    let store' :=
      fst (fst (fold_left (encode_line xxh32) (map terminated todo)
                  (store, outfile, out))) in
    compatible xxh32 lines store'
    /\ (forall k v, store !! k = Some v -> store' !! k = Some v)
    /\ (forall l, l ∈ todo -> l <> EmptyString ->
          store' !! xxhash.hexdigest (xxh32 l) = Some l).
Proof.
  induction 1 as [|l todo Hl _ IH]; intros Hsub store outfile out Hcompat.
  - cbn. split; [exact Hcompat|]. split; [auto|].
    intros l Hin. apply elem_of_nil in Hin. contradiction.
  - cbn [map fold_left].
    assert (forall l', l' ∈ todo -> l' ∈ lines) as Hsub'
      by (intros l' Hin; apply Hsub; right; exact Hin).
    assert (l ∈ lines) as Hin by (apply Hsub; left).
    destruct (decide (l = EmptyString)) as [Hempty|Hne].
    + rewrite encode_line_blank
        by (rewrite rstrip_nl_terminated by exact Hl; exact Hempty).
      destruct (IH Hsub' store (outfile ++ [x00]) out Hcompat)
        as (Hc & Hkeep & Hstored).
      split; [exact Hc|]. split; [exact Hkeep|].
      intros l' Hin' Hne'. apply elem_of_cons in Hin' as [->|Hin'];
        [contradiction | auto].
    + destruct (add_item_total store (xxh32 l) l)
        as (store1 & added & warn & Hadd).
      assert (rstrip_nl (terminated l) <> EmptyString) as Hne1
        by (rewrite rstrip_nl_terminated by exact Hl; exact Hne).
      assert (HashStore.add_item store (xxh32 (rstrip_nl (terminated l)))
                (rstrip_nl (terminated l)) = (store1, added, warn)) as Hadd1
        by (rewrite rstrip_nl_terminated by exact Hl; exact Hadd).
      rewrite (encode_line_text _ _ _ _ _ _ _ _ Hne1 Hadd1).
      destruct (add_item_compatible store l Hin Hne Hcompat) as [Hc1 Hl1].
      pose proof (fun k v => add_item_keeps store (xxh32 l) l k v) as Hk1.
      rewrite Hadd in Hc1, Hl1, Hk1. cbn [fst] in Hc1, Hl1, Hk1.
      destruct (IH Hsub' store1
                  (outfile ++ xxhash.digest (xxh32 (rstrip_nl (terminated l))))
                  (out ++ warn) Hc1) as (Hc & Hkeep & Hstored).
      split; [exact Hc|]. split; [auto|].
      intros l' Hin' Hne'. apply elem_of_cons in Hin' as [->|Hin']; auto.
Qed.

Lemma decode_records store (todo : list string) :
  (forall l, l ∈ todo -> l <> EmptyString ->
     first_byte (xxhash.digest (xxh32 l)) <> x00
     /\ store !! xxhash.hexdigest (xxh32 l) = Some l) ->
  decode_loop store (concat (map (record_of xxh32) todo))
  = map line_printed todo.
Proof.
  induction todo as [|l todo IH]; intros Hall; [reflexivity|].
  cbn [map concat].
  assert (decode_loop store (concat (map (record_of xxh32) todo))
          = map line_printed todo) as IH'
    by (apply IH; intros l' Hin'; apply Hall; right; exact Hin').
  destruct l as [|c l].
  - unfold record_of at 1, line_printed at 1. cbn [truthy app].
    rewrite decode_loop_blank, IH'. reflexivity.
  - destruct (Hall (String c l)) as [Hfirst Hstored];
      [left | discriminate |].
    unfold record_of at 1, line_printed at 1. cbn [truthy].
    rewrite (decode_loop_digest_head store _ _ Hfirst).
    rewrite decode_hash_digest, Hstored, IH'. reflexivity.
Qed.

End RoundTrip.

Lemma records_terminated xxh32 (lines : list string) :
  Forall (fun l => no_newline l = true) lines ->
  map (fun raw => record_of xxh32 (rstrip_nl raw)) (map terminated lines)
  = map (record_of xxh32) lines.
Proof.
  induction 1 as [|l rest Hl _ IH]; [reflexivity|].
  cbn [map]. rewrite rstrip_nl_terminated by exact Hl. f_equal. exact IH.
Qed.

(** C1, as the code has it: for lines without embedded newline whose
    non-empty members have pairwise-distinct hashes, none of them starting
    with the marker byte, encoded against a store that holds no other text
    under those hashes, the stream written is the concatenation of the
    records of the lines, and decoding it against the store left by the
    encoding prints the original lines, blank ones as blank lines. *)
Theorem round_trip_without_marker_prefix
    (xxh32 : string -> xxhash.xxh32) (store : gmap string string)
    (lines : list string) :
  Forall (fun l => no_newline l = true) lines ->
  distinct_hashes xxh32 lines ->
  no_marker_prefix xxh32 lines ->
  compatible xxh32 lines store ->
  exists store' out,
    encode_loop xxh32 store (map terminated lines)
    = (store', concat (map (record_of xxh32) lines), out)
    /\ decode_loop store' (concat (map (record_of xxh32) lines))
       = map line_printed lines
    /\ output_lines
         (decode_loop store' (concat (map (record_of xxh32) lines)))
       = lines.
Proof.
  intros Hnl Hdistinct Hmarker Hcompat.
  pose proof (encode_loop_stream xxh32 store (map terminated lines)) as Hstream.
  rewrite records_terminated in Hstream by exact Hnl.
  destruct (encode_fold_store xxh32 lines Hdistinct lines Hnl
              (fun l H => H) store [] [] Hcompat) as (_ & _ & Hstored).
  fold (encode_loop xxh32 store (map terminated lines)) in Hstored.
  destruct (encode_loop xxh32 store (map terminated lines))
    as [[store' stream] out].
  cbn [fst snd] in Hstream, Hstored. subst stream.
  exists store', out.
  assert (decode_loop store' (concat (map (record_of xxh32) lines))
          = map line_printed lines) as Hdec.
  { apply decode_records. intros l Hin Hne. split; [apply Hmarker|]; auto. }
  split; [reflexivity|]. split; [exact Hdec|].
  rewrite Hdec. apply output_lines_printed.
Qed.

(** The scenario of the specification: "foo", a blank line, "bar" give the
    nine bytes H(foo), 00, H(bar), which decode to the three lines. *)
Lemma round_trip_without_marker_prefix_witness :
  let lines := ["foo"; EmptyString; "bar"] in
  Forall (fun l => no_newline l = true) lines
  /\ distinct_hashes xxh32_seed0 lines
  /\ no_marker_prefix xxh32_seed0 lines
  /\ compatible xxh32_seed0 lines ∅
  /\ exists store' out,
       encode_loop xxh32_seed0 ∅ (map terminated lines)
       = (store', [xe2; x0f; x0d; xd9; x00; x41; xa2; x2b; x2c], out)
       /\ output_lines
            (decode_loop store'
               [xe2; x0f; x0d; xd9; x00; x41; xa2; x2b; x2c])
          = lines.
Proof.
  intros lines.
  assert (Forall (fun l => no_newline l = true) lines) as H1
    by (repeat constructor).
  assert (distinct_hashes xxh32_seed0 lines) as H2.
  { intros l1 l2 Hin1 Hin2 Hne1 Hne2 Hd. unfold lines in *.
    elem_cases Hin1; elem_cases Hin2; try congruence;
      vm_compute in Hd; discriminate. }
  assert (no_marker_prefix xxh32_seed0 lines) as H3.
  { intros l Hin Hne. unfold lines in *.
    elem_cases Hin; try congruence; vm_compute; discriminate. }
  assert (compatible xxh32_seed0 lines ∅) as H4.
  { intros l v _ _ Hv. rewrite lookup_empty in Hv. discriminate. }
  split; [exact H1|]. split; [exact H2|]. split; [exact H3|].
  split; [exact H4|].
  destruct (round_trip_without_marker_prefix xxh32_seed0 ∅ lines H1 H2 H3 H4)
    as (store' & out & Henc & _ & Hout).
  exists store', out. split; [exact Henc | exact Hout].
Defined.

(** C1 as stated fails: the hash of the line "found" is 00de9af9, so the
    decoder takes its first byte for a blank-line marker and the three
    bytes left for an incomplete record. *)
Lemma round_trip_counterexample :
  Forall (fun l => no_newline l = true) ["found"]
  /\ distinct_hashes xxh32_seed0 ["found"]
  /\ encode_loop xxh32_seed0 ∅ (map terminated ["found"])
     = (<["00de9af9" := "found"]> ∅, [x00; xde; x9a; xf9], [])
  /\ decode_loop (<["00de9af9" := "found"]> ∅) [x00; xde; x9a; xf9]
     = [BlankLine; WarnIncomplete]
  /\ output_lines
       (decode_loop (<["00de9af9" := "found"]> ∅) [x00; xde; x9a; xf9])
     <> ["found"].
Proof.
  split; [repeat constructor|].
  split.
  { intros l1 l2 Hin1 Hin2 _ _ _. elem_cases Hin1. elem_cases Hin2.
    reflexivity. }
  split; [vm_compute; reflexivity|].
  split; [vm_compute; reflexivity|].
  vm_compute. discriminate.
Qed.

(** ** The process: loading, exit status, what decoding may touch *)

Lemma decode_and_print_keeps (w : os) (hash_file : string) (p : process) :
  store (snd (decode_and_print w hash_file p)) = store p.
Proof.
  unfold decode_and_print.
  destruct (path_exists w hash_file); cbn [negb].
  - destruct (open_binary w hash_file) as [e|infile].
    + destruct (is_IOError e); run; auto.
    + run. auto.
  - run. auto.
Qed.

(** C9: [decode_and_print] only reads the dictionary: whatever the world
    and the stream, the dictionary after the call is the one before (and
    no file or blob is written). *)
Theorem decode_and_print_reads_only
    (w : os) (hash_file : string) (p : process) :
  store (snd (decode_and_print w hash_file p)) = store p
  /\ files (snd (decode_and_print w hash_file p)) = files p
  /\ blobs (snd (decode_and_print w hash_file p)) = blobs p.
Proof.
  unfold decode_and_print.
  destruct (path_exists w hash_file); cbn [negb].
  - destruct (open_binary w hash_file) as [e|infile].
    + destruct (is_IOError e); run; auto.
    + run. auto.
  - run. auto.
Qed.

Lemma init_returns_or_raises (w : os) (db_path : string) (p : process) :
  (exists p', HashStore.__init__ w db_path p = (Returns tt, p'))
  \/ (exists e p', HashStore.__init__ w db_path p = (Raises e, p')).
Proof.
  unfold HashStore.__init__, HashStore._load.
  destruct (path_exists w db_path).
  - destruct (gzip_pickle_load w db_path) as [e|d].
    + destruct (is_IOError e || is_UnpicklingError e); run; eauto.
    + run. eauto.
  - run. eauto.
Qed.

(** A missing store file gives the empty store. *)
Lemma load_missing_path (w : os) (db_path : string) (p : process) :
  path_exists w db_path = false ->
  fst (HashStore.__init__ w db_path p) = Returns tt
  /\ store (snd (HashStore.__init__ w db_path p)) = ∅.
Proof.
  intros E. unfold HashStore.__init__, HashStore._load. rewrite E. run. auto.
Qed.

(** The exceptions that [_load] catches give a warning and the empty
    store. *)
Lemma load_caught (w : os) (db_path : string) (p : process) (e : exn) :
  path_exists w db_path = true ->
  gzip_pickle_load w db_path = inl e ->
  is_IOError e || is_UnpicklingError e = true ->
  HashStore.__init__ w db_path p
  = (Returns tt,
     {| store := ∅; stdout := stdout p ++ [WarnLoadFailed db_path e];
        files := files p; blobs := blobs p |}).
Proof.
  intros E1 E2 E3. unfold HashStore.__init__, HashStore._load.
  rewrite E1, E2, E3. run. reflexivity.
Qed.

(** Any other exception of the load escapes from the constructor. *)
Lemma load_uncaught (w : os) (db_path : string) (p : process) (e : exn) :
  path_exists w db_path = true ->
  gzip_pickle_load w db_path = inl e ->
  is_IOError e || is_UnpicklingError e = false ->
  fst (HashStore.__init__ w db_path p) = Raises e.
Proof.
  intros E1 E2 E3. unfold HashStore.__init__, HashStore._load.
  rewrite E1, E2, E3. run. reflexivity.
Qed.

(** The sibling's [_load_store] recovers from every exception. *)
Lemma sibling_load_recovers (w : os) (blob_path : string) (p : process) :
  (forall d, gzip_pickle_load w blob_path <> inr d) ->
  fst (CollisionCli._load_store w blob_path p) = Returns tt
  /\ (path_exists w blob_path = true ->
      store (snd (CollisionCli._load_store w blob_path p)) = ∅).
Proof.
  intros Hbad. unfold CollisionCli._load_store.
  destruct (path_exists w blob_path).
  - destruct (gzip_pickle_load w blob_path) as [e|d] eqn:E.
    + destruct (is_UnpicklingError e || is_EOFError e || is_BadGzipFile e);
        run; auto.
    + exfalso. exact (Hbad d eq_refl).
  - run. split; [reflexivity | discriminate].
Qed.

(** C5, the code at a store file that is empty or cut short: the load
    raises [EOFError], which [_load] does not catch; the constructor lets
    it escape and [main] dies with status 1 without printing a warning or
    saving anything, where [_load_store] of the sibling tool starts from
    the empty store. Bytes that are no gzip stream at all are recovered
    from as the claim says. *)
Theorem load_truncated_store_is_fatal :
  HashStore.__init__ os_with_truncated_db "dedupe_main.db" initial
  = (Raises EOFError, initial)
  /\ exit_status (main xxh32_seed0 os_with_truncated_db seed_args initial) = 1
  /\ snd (main xxh32_seed0 os_with_truncated_db seed_args initial) = initial
  /\ CollisionCli._load_store os_with_truncated_db "dedupe_main.db" initial
     = (Returns tt,
        {| store := ∅;
           stdout := [C_WarnLoadFailed "dedupe_main.db" EOFError];
           files := []; blobs := [] |})
  /\ HashStore.__init__ os_with_garbage_db "dedupe_main.db" initial
     = (Returns tt,
        {| store := ∅;
           stdout := [WarnLoadFailed "dedupe_main.db" BadGzipFile];
           files := []; blobs := [] |}).
Proof. repeat split; reflexivity. Qed.

(** C6, the code when nothing matches the pattern: [seed_from_glob] prints
    its message and returns, [main] goes on to save the (empty) store and
    ends with status 0; the seed action of the sibling tool calls
    [sys.exit(1)] at the same point. *)
Theorem seed_without_match_exits_zero :
  main xxh32_seed0 bare_os seed_args initial
  = (Returns tt,
     {| store := ∅;
        stdout := [NoExistingStore "dedupe_main.db";
                   NoFilesFound "corpus/*.txt";
                   SavedStore "dedupe_main.db"];
        files := []; blobs := [("dedupe_main.db", ∅)] |})
  /\ exit_status (main xxh32_seed0 bare_os seed_args initial) = 0
  /\ forall _generate_hash strip,
       CollisionCli.main_seed _generate_hash strip bare_os
         "dedupe_main.db" "corpus/*.txt" initial
       = (Exits 1,
          {| store := ∅;
             stdout := [C_Seeding "dedupe_main.db" "corpus/*.txt";
                        C_WarnNoFiles "corpus/*.txt"];
             files := []; blobs := [] |}).
Proof. repeat split; reflexivity. Qed.

(** Whatever the world: when the pattern matches nothing, the store loads
    and can be written, [main] ends normally. *)
Lemma seed_without_match_returns
    (xxh32 : string -> xxhash.xxh32) (w : os) (a : args)
    (glob_pattern : string) (p0 : process) :
  given (seed a) = Some glob_pattern ->
  glob_glob w glob_pattern false = [] ->
  HashStore.__init__ w (db a) initial = (Returns tt, p0) ->
  open_write w (db a) = None ->
  exit_status (main xxh32 w a initial) = 0
  /\ blobs (snd (main xxh32 w a initial)) = blobs p0 ++ [(db a, store p0)].
Proof.
  intros Hseed Hglob Hinit Hwrite.
  unfold main, exit_status. rewrite Hseed.
  unfold seed_from_glob, HashStore.save. rewrite Hglob, Hwrite.
  run. rewrite Hinit. cbn. auto.
Qed.

(** What [decode_and_print] does on a readable stream that ends inside a
    record: the warning, then "Decoding complete.", and a normal return. *)
Lemma decode_and_print_truncated
    (w : os) (hash_file : string) (p : process)
    (pre : list byte) (chunk : byte) (tail : list byte) :
  path_exists w hash_file = true ->
  open_binary w hash_file = inr (pre ++ chunk :: tail) ->
  complete_records pre = true ->
  chunk <> x00 ->
  (length tail < 3)%nat ->
  decode_and_print w hash_file p
  = (Returns tt,
     {| store := store p;
        stdout := ((stdout p ++ [DecodingStart hash_file])
                   ++ decode_loop (store p) pre ++ [WarnIncomplete])
                  ++ [DecodingComplete];
        files := files p; blobs := blobs p |}).
Proof.
  intros Hex Hopen Hc Hne Hlen. unfold decode_and_print.
  rewrite Hex, Hopen. cbn [negb]. run.
  rewrite decode_loop_app by exact Hc.
  rewrite (decode_loop_short _ _ _ Hne Hlen). reflexivity.
Qed.

(** C7, as the code has it: [main] with the decode action ends with status
    1 when the hash file does not exist; when the file ends inside a record
    (and the store loads and can be saved) the warning is printed, the
    store is saved and [main] ends normally, with status 0. *)
Theorem decode_exit_status
    (xxh32 : string -> xxhash.xxh32) (w : os) (a : args)
    (hash_file : string) :
  given (seed a) = None ->
  given (input a) = None ->
  given (decode a) = Some hash_file ->
  (path_exists w hash_file = false ->
   exit_status (main xxh32 w a initial) = 1)
  /\ (forall pre chunk tail p0,
        path_exists w hash_file = true ->
        open_binary w hash_file = inr (pre ++ chunk :: tail) ->
        complete_records pre = true ->
        chunk <> x00 ->
        (length tail < 3)%nat ->
        HashStore.__init__ w (db a) initial = (Returns tt, p0) ->
        open_write w (db a) = None ->
        exit_status (main xxh32 w a initial) = 0
        /\ WarnIncomplete ∈ stdout (snd (main xxh32 w a initial))
        /\ store (snd (main xxh32 w a initial)) = store p0
        /\ blobs (snd (main xxh32 w a initial))
           = blobs p0 ++ [(db a, store p0)]).
Proof.
  intros Hseed Hinput Hdecode. split.
  - intros Hmissing. unfold main, exit_status.
    rewrite Hseed, Hinput, Hdecode. unfold decode_and_print.
    rewrite Hmissing. cbn [negb].
    destruct (init_returns_or_raises w (db a) initial)
      as [(p' & E)|(e & p' & E)]; run; rewrite E; reflexivity.
  - intros pre chunk tail p0 Hex Hopen Hc Hne Hlen Hinit Hwrite.
    unfold main, exit_status. rewrite Hseed, Hinput, Hdecode.
    unfold HashStore.save. rewrite Hwrite.
    pose proof (decode_and_print_truncated w hash_file p0 pre chunk tail
                  Hex Hopen Hc Hne Hlen) as Hdec.
    run. rewrite Hinit, Hdec. cbn [fst snd store stdout blobs].
    repeat split.
    rewrite !elem_of_app, !list_elem_of_singleton. tauto.
Qed.

Lemma decode_exit_status_witness :
  given (seed decode_args) = None
  /\ given (input decode_args) = None
  /\ given (decode decode_args) = Some "out.bin"
  /\ exit_status (main xxh32_seed0 bare_os decode_args initial) = 1
  /\ exit_status (main xxh32_seed0 os_with_truncated_stream decode_args
                    initial) = 0.
Proof.
  split; [reflexivity|]. split; [reflexivity|]. split; [reflexivity|].
  split.
  - exact (proj1 (decode_exit_status xxh32_seed0 bare_os decode_args
                    "out.bin" eq_refl eq_refl eq_refl) eq_refl).
  - assert (xe2 <> x00) as Hne by discriminate.
    assert (length [x0f; x0d] < 3)%nat as Hlen by (simpl; lia).
    exact (proj1 (proj2 (decode_exit_status xxh32_seed0
                           os_with_truncated_stream decode_args "out.bin"
                           eq_refl eq_refl eq_refl)
                    [] xe2 [x0f; x0d]
                    {| store := ∅;
                       stdout := [NoExistingStore "dedupe_main.db"];
                       files := []; blobs := [] |}
                    eq_refl eq_refl eq_refl Hne Hlen eq_refl eq_refl)).
Defined.

(** C7 as stated fails: a hash file that ends inside a record (here the
    first three bytes of the record of "foo") makes [main] print the
    warning and still end with status 0. *)
Lemma truncated_stream_exits_zero :
  open_binary os_with_truncated_stream "out.bin" = inr [xe2; x0f; x0d]
  /\ main xxh32_seed0 os_with_truncated_stream decode_args initial
     = (Returns tt,
        {| store := ∅;
           stdout := [NoExistingStore "dedupe_main.db";
                      DecodingStart "out.bin";
                      WarnIncomplete;
                      DecodingComplete;
                      SavedStore "dedupe_main.db"];
           files := []; blobs := [("dedupe_main.db", ∅)] |})
  /\ exit_status (main xxh32_seed0 os_with_truncated_stream decode_args
                    initial) = 0.
Proof. repeat split; reflexivity. Qed.

(** At the level of [main]: with the decode action the dictionary at the
    end of the run is the one that was loaded, whatever the hash file
    holds. *)
Lemma main_decode_keeps_store
    (xxh32 : string -> xxhash.xxh32) (w : os) (a : args)
    (hash_file : string) (p0 : process) :
  given (seed a) = None ->
  given (input a) = None ->
  given (decode a) = Some hash_file ->
  HashStore.__init__ w (db a) initial = (Returns tt, p0) ->
  store (snd (main xxh32 w a initial)) = store p0.
Proof.
  intros Hseed Hinput Hdecode Hinit.
  pose proof (decode_and_print_keeps w hash_file p0) as Hkeep.
  unfold main. rewrite Hseed, Hinput, Hdecode.
  unfold mbind at 1 2. unfold M_bind at 1 2. rewrite Hinit.
  destruct (decode_and_print w hash_file p0) as [[[]|n|e] p1];
    cbn [fst snd] in *; try exact Hkeep.
  unfold HashStore.save.
  destruct (open_write w (db a)) as [e|].
  - destruct (is_IOError e); run; exact Hkeep.
  - run. exact Hkeep.
Qed.

(** ** Scenarios of the specification *)

(** Seeding from "alpha", "beta", "alpha": two entries, three lines
    scanned, two added. *)
Example seeding_counts :
  let '(d, unique_lines_added, total_lines_processed, out) :=
    fold_left (seed_line xxh32_seed0)
      [terminated "alpha"; terminated "beta"; terminated "alpha"]
      (∅, 0%nat, 0%nat, []) in
  size d = 2%nat /\ total_lines_processed = 3%nat
  /\ unique_lines_added = 2%nat /\ out = [].
Proof. vm_compute. repeat split; reflexivity. Qed.

(** Inserting the same pair twice: true, then false, and one entry. *)
Lemma add_item_idempotent store h text :
  store !! xxhash.hexdigest h = None ->
  exists store1,
    HashStore.add_item store h text = (store1, true, [])
    /\ HashStore.add_item store1 h text = (store1, false, [])
    /\ size store1 = S (size store).
Proof.
  intros Hnone. exists (<[xxhash.hexdigest h := text]> store).
  split; [apply add_item_new; exact Hnone|].
  split; [apply add_item_duplicate; apply lookup_insert_eq|].
  apply map_size_insert_None. exact Hnone.
Qed.

(** * Further properties of [final_dedupe_cli.py] *)

(** ** The store under insertion, seeding and encoding *)

(** X1: a second [add_item] with the same hash and text always returns
    false and leaves the dictionary as the first call left it; the two
    calls together add at most one entry. *)
Theorem add_item_twice
    (store : gmap string string) (h : xxhash.xxh32) (text : string) :
  let '(store1, added1, _) := HashStore.add_item store h text in
  let '(store2, added2, out2) := HashStore.add_item store1 h text in
  store2 = store1
  /\ added2 = false
  /\ (added1 = true -> out2 = [] /\ size store1 = S (size store))
  /\ (added1 = false -> store1 = store).
Proof.
  unfold HashStore.add_item.
  destruct (store !! xxhash.hexdigest h) as [existing|] eqn:E.
  - destruct (String.eqb existing text) eqn:Et; rewrite E, Et;
      repeat split; discriminate.
  - rewrite lookup_insert_eq, String.eqb_refl.
    repeat split; try discriminate.
    apply map_size_insert_None. exact E.
Qed.

Lemma encode_line_keeps xxh32 store outfile out raw k v :
  store !! k = Some v ->
  fst (fst (encode_line xxh32 (store, outfile, out) raw)) !! k = Some v.
Proof.
  intros Hk. unfold encode_line.
  destruct (truthy (rstrip_nl raw)); cbn [negb]; [|exact Hk].
  pose proof (add_item_keeps store (xxh32 (rstrip_nl raw)) (rstrip_nl raw)
                k v Hk) as Hkeep.
  destruct (HashStore.add_item store (xxh32 (rstrip_nl raw)) (rstrip_nl raw))
    as [[store' added] warn].
  exact Hkeep.
Qed.

Lemma seed_line_keeps xxh32 store unique total out raw k v :
  store !! k = Some v ->
  fst (fst (fst (seed_line xxh32 (store, unique, total, out) raw))) !! k
  = Some v.
Proof.
  intros Hk. unfold seed_line.
  destruct (truthy (rstrip_nl raw)); [|exact Hk].
  pose proof (add_item_keeps store (xxh32 (rstrip_nl raw)) (rstrip_nl raw)
                k v Hk) as Hkeep.
  destruct (HashStore.add_item store (xxh32 (rstrip_nl raw)) (rstrip_nl raw))
    as [[store' added] warn].
  exact Hkeep.
Qed.

Lemma encode_fold_keeps xxh32 infile : forall store outfile out k v,
  store !! k = Some v ->
  fst (fst (fold_left (encode_line xxh32) infile (store, outfile, out))) !! k
  = Some v.
Proof.
  induction infile as [|raw infile IH]; intros store outfile out k v Hk;
    [exact Hk|].
  cbn [fold_left].
  pose proof (encode_line_keeps xxh32 store outfile out raw k v Hk) as H1.
  destruct (encode_line xxh32 (store, outfile, out) raw)
    as [[store1 outfile1] out1].
  apply IH. exact H1.
Qed.

Lemma seed_fold_keeps xxh32 infile : forall store unique total out k v,
  store !! k = Some v ->
  fst (fst (fst (fold_left (seed_line xxh32) infile
                   (store, unique, total, out)))) !! k = Some v.
Proof.
  induction infile as [|raw infile IH]; intros store unique total out k v Hk;
    [exact Hk|].
  cbn [fold_left].
  pose proof (seed_line_keeps xxh32 store unique total out raw k v Hk) as H1.
  destruct (seed_line xxh32 (store, unique, total, out) raw)
    as [[[store1 unique1] total1] out1].
  apply IH. exact H1.
Qed.

(** X2: first writer wins, for whole files: whatever the lines and the
    hash function, every entry the dictionary holds before encoding or
    seeding is in it, unchanged, afterwards. *)
Theorem encode_and_seed_never_overwrite
    (xxh32 : string -> xxhash.xxh32) (store : gmap string string)
    (infile : list string) :
  store ⊆ fst (fst (encode_loop xxh32 store infile))
  /\ store ⊆ fst (fst (fst (fold_left (seed_line xxh32) infile
                              (store, 0%nat, 0%nat, [])))).
Proof.
  split; apply map_subseteq_spec; intros k v Hk.
  - apply encode_fold_keeps. exact Hk.
  - apply seed_fold_keeps. exact Hk.
Qed.

Lemma record_of_length xxh32 line :
  length (record_of xxh32 line) = if truthy line then 4%nat else 1%nat.
Proof. unfold record_of. destruct (truthy line); reflexivity. Qed.

(** X3: the bytes that encoding writes do not depend on the dictionary it
    starts from, and their number is four for every non-empty line plus one
    for every empty one. *)
Theorem encode_stream_shape
    (xxh32 : string -> xxhash.xxh32) (store1 store2 : gmap string string)
    (infile : list string) :
  snd (fst (encode_loop xxh32 store1 infile))
  = snd (fst (encode_loop xxh32 store2 infile))
  /\ length (snd (fst (encode_loop xxh32 store1 infile)))
     = sum_list_with
         (fun raw => if truthy (rstrip_nl raw) then 4%nat else 1%nat) infile.
Proof.
  split; [rewrite !encode_loop_stream; reflexivity|].
  rewrite encode_loop_stream.
  induction infile as [|raw infile IH]; [reflexivity|].
  cbn [map concat sum_list_with]. rewrite length_app, record_of_length, IH.
  reflexivity.
Qed.

Lemma encode_seed_fold_agree xxh32 infile :
  forall store outfile out unique total,
    fst (fst (fold_left (encode_line xxh32) infile (store, outfile, out)))
    = fst (fst (fst (fold_left (seed_line xxh32) infile
                       (store, unique, total, out))))
    /\ snd (fold_left (encode_line xxh32) infile (store, outfile, out))
       = snd (fold_left (seed_line xxh32) infile (store, unique, total, out)).
Proof.
  induction infile as [|raw infile IH]; intros store outfile out unique total;
    [split; reflexivity|].
  cbn [fold_left]. unfold encode_line at 2 4, seed_line at 2 4.
  destruct (truthy (rstrip_nl raw)); cbn [negb]; [|apply IH].
  destruct (HashStore.add_item store (xxh32 (rstrip_nl raw)) (rstrip_nl raw))
    as [[store' added] warn].
  apply IH.
Qed.

(** X4: encoding is seeding plus writing: on the same lines and from the
    same dictionary, [process_and_encode] and [seed_from_glob] leave the
    same dictionary and print the same collision warnings. *)
Theorem encode_seeds_like_seed
    (xxh32 : string -> xxhash.xxh32) (store : gmap string string)
    (infile : list string) :
  fst (fst (encode_loop xxh32 store infile))
  = fst (fst (fst (fold_left (seed_line xxh32) infile
                     (store, 0%nat, 0%nat, []))))
  /\ snd (encode_loop xxh32 store infile)
     = snd (fold_left (seed_line xxh32) infile (store, 0%nat, 0%nat, [])).
Proof. apply encode_seed_fold_agree. Qed.

Lemma seed_line_counts xxh32 store unique total out raw :
  let '(store', unique', total', _) :=
    seed_line xxh32 (store, unique, total, out) raw in
  total' = S total
  /\ (size store' + unique = size store + unique')%nat
  /\ (unique <= unique')%nat.
Proof.
  unfold seed_line. destruct (truthy (rstrip_nl raw)); [|auto].
  unfold HashStore.add_item.
  destruct (store !! xxhash.hexdigest (xxh32 (rstrip_nl raw)))
    as [existing|] eqn:E.
  - destruct (String.eqb existing (rstrip_nl raw)); auto.
  - rewrite (map_size_insert_None _ _ _ E). repeat split; lia.
Qed.

Lemma seed_fold_counts xxh32 infile : forall store unique total out,
  let '(store', unique', total', _) :=
    fold_left (seed_line xxh32) infile (store, unique, total, out) in
  total' = (total + length infile)%nat
  /\ (size store' + unique = size store + unique')%nat
  /\ (unique <= unique')%nat.
Proof.
  induction infile as [|raw infile IH]; intros store unique total out.
  - cbn. repeat split; lia.
  - cbn [fold_left length].
    pose proof (seed_line_counts xxh32 store unique total out raw) as H1.
    destruct (seed_line xxh32 (store, unique, total, out) raw)
      as [[[store1 unique1] total1] out1].
    specialize (IH store1 unique1 total1 out1).
    destruct (fold_left (seed_line xxh32) infile
                (store1, unique1, total1, out1))
      as [[[store' unique'] total'] out'].
    destruct H1 as (-> & Hs & Hu). destruct IH as (-> & Hs' & Hu').
    repeat split; lia.
Qed.

(** X5: the counters of the seeding loop are exact: [total_lines_processed]
    grows by the number of lines read, blank ones included, and
    [unique_lines_added] by the number of entries the dictionary gained. *)
Theorem seeding_counters_exact
    (xxh32 : string -> xxhash.xxh32) (store : gmap string string)
    (unique total : nat) (out : list printed) (infile : list string) :
  let '(store', unique', total', _) :=
    fold_left (seed_line xxh32) infile (store, unique, total, out) in
  total' = (total + length infile)%nat
  /\ (unique <= unique')%nat
  /\ size store' = (size store + (unique' - unique))%nat.
Proof.
  pose proof (seed_fold_counts xxh32 infile store unique total out) as H.
  destruct (fold_left (seed_line xxh32) infile (store, unique, total, out))
    as [[[store' unique'] total'] out'].
  destruct H as (Ht & Hs & Hu). repeat split; [exact Ht | exact Hu | lia].
Qed.

Lemma add_item_present store h text :
  is_Some (fst (fst (HashStore.add_item store h text))
             !! xxhash.hexdigest h).
Proof.
  unfold HashStore.add_item.
  destruct (store !! xxhash.hexdigest h) as [existing|] eqn:E.
  - destruct (String.eqb existing text); cbn [fst]; rewrite E; eauto.
  - cbn [fst]. rewrite lookup_insert_eq. eauto.
Qed.

Lemma add_item_present_id store h text :
  is_Some (store !! xxhash.hexdigest h) ->
  fst (fst (HashStore.add_item store h text)) = store.
Proof.
  intros [existing E]. unfold HashStore.add_item. rewrite E.
  destruct (String.eqb existing text); reflexivity.
Qed.

(** After encoding, the hash of every non-empty line is a key. *)
Lemma encode_fold_present xxh32 infile : forall store outfile out raw,
  raw ∈ infile ->
  truthy (rstrip_nl raw) = true ->
  is_Some (fst (fst (fold_left (encode_line xxh32) infile
                       (store, outfile, out)))
             !! xxhash.hexdigest (xxh32 (rstrip_nl raw))).
Proof.
  induction infile as [|raw0 infile IH]; intros store outfile out raw Hin Ht.
  - apply elem_of_nil in Hin. contradiction.
  - cbn [fold_left]. apply elem_of_cons in Hin as [->|Hin].
    + unfold encode_line at 2. rewrite Ht. cbn [negb].
      pose proof (add_item_present store (xxh32 (rstrip_nl raw0))
                    (rstrip_nl raw0)) as [v Hv].
      destruct (HashStore.add_item store (xxh32 (rstrip_nl raw0))
                  (rstrip_nl raw0)) as [[store' added] warn].
      cbn [fst] in Hv. exists v. apply encode_fold_keeps. exact Hv.
    + destruct (encode_line xxh32 (store, outfile, out) raw0)
        as [[store1 outfile1] out1].
      apply IH; assumption.
Qed.

(** If the hash of every non-empty line is a key already, encoding leaves
    the dictionary alone. *)
Lemma encode_fold_fixed xxh32 infile : forall store outfile out,
  (forall raw, raw ∈ infile -> truthy (rstrip_nl raw) = true ->
     is_Some (store !! xxhash.hexdigest (xxh32 (rstrip_nl raw)))) ->
  fst (fst (fold_left (encode_line xxh32) infile (store, outfile, out)))
  = store.
Proof.
  induction infile as [|raw infile IH]; intros store outfile out Hall;
    [reflexivity|].
  cbn [fold_left].
  assert (forall raw', raw' ∈ infile -> truthy (rstrip_nl raw') = true ->
            is_Some (store !! xxhash.hexdigest (xxh32 (rstrip_nl raw'))))
    as Hall' by (intros raw' Hin; apply Hall; right; exact Hin).
  unfold encode_line at 2.
  destruct (truthy (rstrip_nl raw)) eqn:Ht; cbn [negb]; [|apply IH; exact Hall'].
  pose proof (add_item_present_id store (xxh32 (rstrip_nl raw)) (rstrip_nl raw)
                (Hall raw ltac:(left) Ht)) as Hid.
  destruct (HashStore.add_item store (xxh32 (rstrip_nl raw)) (rstrip_nl raw))
    as [[store' added] warn].
  cbn [fst] in Hid. subst store'. apply IH. exact Hall'.
Qed.

(** X6: encoding the same input a second time changes nothing in the
    dictionary (and writes the same bytes), whatever collisions the
    first pass met. *)
Theorem encode_twice_same_store
    (xxh32 : string -> xxhash.xxh32) (store : gmap string string)
    (infile : list string) :
  let store1 := fst (fst (encode_loop xxh32 store infile)) in
  fst (fst (encode_loop xxh32 store1 infile)) = store1.
Proof.
  intros store1. unfold encode_loop. apply encode_fold_fixed.
  intros raw Hin Ht. apply encode_fold_present; assumption.
Qed.

(** ** The decoding loop, further *)

Lemma decode_hash_not_incomplete store bs :
  decode_hash store bs <> WarnIncomplete.
Proof. unfold decode_hash. destruct (store !! Bytes.hex bs); discriminate. Qed.

(** X7: the incomplete-block warning is printed exactly when the stream
    does not end at a record boundary, and then it is the last thing the
    loop prints and is printed once. *)
Theorem decode_warns_incomplete_iff
    (store : gmap string string) (infile : list byte) :
  (complete_records infile = true ->
   WarnIncomplete ∉ decode_loop store infile)
  /\ (complete_records infile = false ->
      exists before,
        decode_loop store infile = before ++ [WarnIncomplete]
        /\ WarnIncomplete ∉ before).
Proof.
  induction infile as [|rest IH|b0 b1 b2 b3 rest Hne IH|b0 tail Hne Hlen]
    using records_ind.
  - split; [intros _ Hin; apply elem_of_nil in Hin; exact Hin | discriminate].
  - rewrite decode_loop_blank. cbn [complete_records Byte.eqb].
    change (Byte.eqb x00 x00) with true. cbn iota.
    destruct IH as [IH1 IH2]. split.
    + intros Hc Hin. apply elem_of_cons in Hin as [Hin|Hin]; [discriminate|].
      exact (IH1 Hc Hin).
    + intros Hc. destruct (IH2 Hc) as (before & -> & Hb).
      exists (BlankLine :: before). split; [reflexivity|].
      intros Hin. apply elem_of_cons in Hin as [Hin|Hin];
        [discriminate | exact (Hb Hin)].
  - rewrite decode_loop_hash by exact Hne. cbn [complete_records].
    rewrite (byte_eqb_x00 _ Hne).
    destruct IH as [IH1 IH2]. split.
    + intros Hc Hin. apply elem_of_cons in Hin as [Hin|Hin].
      * symmetry in Hin. exact (decode_hash_not_incomplete _ _ Hin).
      * exact (IH1 Hc Hin).
    + intros Hc. destruct (IH2 Hc) as (before & -> & Hb).
      exists (decode_hash store [b0; b1; b2; b3] :: before).
      split; [reflexivity|].
      intros Hin. apply elem_of_cons in Hin as [Hin|Hin].
      * symmetry in Hin. exact (decode_hash_not_incomplete _ _ Hin).
      * exact (Hb Hin).
  - rewrite (decode_loop_short store b0 tail Hne Hlen). split.
    + intros Hc. exfalso. cbn [complete_records] in Hc.
      rewrite (byte_eqb_x00 _ Hne) in Hc.
      destruct tail as [|b1 [|b2 [|b3 rest']]]; try discriminate.
      simpl in Hlen. lia.
    + intros _. exists []. split; [reflexivity|].
      intros Hin. apply elem_of_nil in Hin. exact Hin.
Qed.

Lemma decode_loop_subseteq store store' infile :
  store ⊆ store' ->
  (forall h, WarnHashNotFound h ∉ decode_loop store infile) ->
  decode_loop store' infile = decode_loop store infile.
Proof.
  intros Hsub.
  induction infile as [|rest IH|b0 b1 b2 b3 rest Hne IH|b0 tail Hne Hlen]
    using records_ind; intros Hfound.
  - reflexivity.
  - rewrite !decode_loop_blank in *. f_equal. apply IH.
    intros h Hin. apply (Hfound h). right. exact Hin.
  - rewrite !decode_loop_hash in * by exact Hne. f_equal.
    + unfold decode_hash in *.
      destruct (store !! Bytes.hex [b0; b1; b2; b3]) as [text|] eqn:E.
      * rewrite (lookup_weaken _ _ _ _ E Hsub). reflexivity.
      * exfalso. apply (Hfound (Bytes.hex [b0; b1; b2; b3])). left.
    + apply IH. intros h Hin. apply (Hfound h). right. exact Hin.
  - rewrite !(decode_loop_short _ b0 tail Hne Hlen). reflexivity.
Qed.

(** X8: a stream that decodes without a missing hash decodes to the same
    output after any further encoding or seeding into the same store. *)
Theorem decode_stable_under_growth
    (xxh32 : string -> xxhash.xxh32) (store : gmap string string)
    (infile : list byte) (more : list string) :
  (forall h, WarnHashNotFound h ∉ decode_loop store infile) ->
  decode_loop (fst (fst (encode_loop xxh32 store more))) infile
  = decode_loop store infile
  /\ decode_loop
       (fst (fst (fst (fold_left (seed_line xxh32) more
                         (store, 0%nat, 0%nat, []))))) infile
     = decode_loop store infile.
Proof.
  intros Hfound.
  split; apply decode_loop_subseteq; try exact Hfound;
    apply map_subseteq_spec; intros k v Hk.
  - apply encode_fold_keeps. exact Hk.
  - apply seed_fold_keeps. exact Hk.
Qed.

Lemma decode_stable_under_growth_witness :
  (forall h, WarnHashNotFound h
             ∉ decode_loop (<["e20f0dd9" := "foo"]> ∅)
                 [xe2; x0f; x0d; xd9; x00])
  /\ decode_loop
       (fst (fst (encode_loop xxh32_seed0 (<["e20f0dd9" := "foo"]> ∅)
                    [terminated "bar"; terminated "found"])))
       [xe2; x0f; x0d; xd9; x00]
     = [TextLine "foo"; BlankLine].
Proof.
  assert (forall h, WarnHashNotFound h
                    ∉ decode_loop (<["e20f0dd9" := "foo"]> ∅)
                        [xe2; x0f; x0d; xd9; x00]) as H.
  { intros h Hin.
    assert (decode_loop (<["e20f0dd9" := "foo"]> ∅) [xe2; x0f; x0d; xd9; x00]
            = [TextLine "foo"; BlankLine]) as E by (vm_compute; reflexivity).
    rewrite E in Hin.
    apply elem_of_cons in Hin as [Hin|Hin]; [discriminate|].
    apply elem_of_cons in Hin as [Hin|Hin]; [discriminate|].
    apply elem_of_nil in Hin. exact Hin. }
  split; [exact H|].
  exact (proj1 (decode_stable_under_growth xxh32_seed0
                  (<["e20f0dd9" := "foo"]> ∅) [xe2; x0f; x0d; xd9; x00]
                  [terminated "bar"; terminated "found"] H)).
Defined.

(** X9: against a store that holds none of the hashes of a stream (the
    empty store, say) decoding prints no text: only the empty lines of the
    marker bytes and warnings. *)
Theorem decode_without_entries
    (store : gmap string string) (infile : list byte) :
  (forall b0 b1 b2 b3, store !! Bytes.hex [b0; b1; b2; b3] = None) ->
  Forall (fun line => line = EmptyString)
    (output_lines (decode_loop store infile))
  /\ forall text, TextLine text ∉ decode_loop store infile.
Proof.
  intros Hnone.
  induction infile as [|rest IH|b0 b1 b2 b3 rest Hne IH|b0 tail Hne Hlen]
    using records_ind.
  - split; [constructor | intros t Hin; apply elem_of_nil in Hin; exact Hin].
  - rewrite decode_loop_blank. destruct IH as [IH1 IH2]. split.
    + unfold output_lines in *. cbn. constructor; [reflexivity | exact IH1].
    + intros t Hin. apply elem_of_cons in Hin as [Hin|Hin];
        [discriminate | exact (IH2 t Hin)].
  - rewrite decode_loop_hash by exact Hne. destruct IH as [IH1 IH2].
    unfold decode_hash. rewrite Hnone. split.
    + unfold output_lines in *. cbn. exact IH1.
    + intros t Hin. apply elem_of_cons in Hin as [Hin|Hin];
        [discriminate | exact (IH2 t Hin)].
  - rewrite (decode_loop_short store b0 tail Hne Hlen). split.
    + unfold output_lines. cbn. constructor.
    + intros t Hin. apply elem_of_cons in Hin as [Hin|Hin]; [discriminate|].
      apply elem_of_nil in Hin. exact Hin.
Qed.

Lemma decode_without_entries_witness :
  (forall b0 b1 b2 b3,
      (∅ : gmap string string) !! Bytes.hex [b0; b1; b2; b3] = None)
  /\ Forall (fun line => line = EmptyString)
       (output_lines (decode_loop ∅ [x00; xe2; x0f; x0d; xd9; x00; x41])).
Proof.
  assert (forall b0 b1 b2 b3,
             (∅ : gmap string string) !! Bytes.hex [b0; b1; b2; b3] = None)
    as H by (intros; apply lookup_empty).
  split; [exact H|].
  exact (proj1 (decode_without_entries ∅
                  [x00; xe2; x0f; x0d; xd9; x00; x41] H)).
Defined.

(** ** Collisions and the shape of the decoded text *)

Lemma decode_records_present xxh32 store (todo : list string) :
  (forall l, l ∈ todo -> l <> EmptyString ->
     first_byte (xxhash.digest (xxh32 l)) <> x00
     /\ is_Some (store !! xxhash.hexdigest (xxh32 l))) ->
  Forall2
    (fun line p =>
       if truthy line
       then exists text,
              p = TextLine text
              /\ store !! xxhash.hexdigest (xxh32 line) = Some text
       else p = BlankLine)
    todo (decode_loop store (concat (map (record_of xxh32) todo))).
Proof.
  induction todo as [|l todo IH]; intros Hall; [constructor|].
  cbn [map concat].
  assert (forall l', l' ∈ todo -> l' <> EmptyString ->
            first_byte (xxhash.digest (xxh32 l')) <> x00
            /\ is_Some (store !! xxhash.hexdigest (xxh32 l'))) as Hall'
    by (intros l' Hin'; apply Hall; right; exact Hin').
  destruct l as [|c l].
  - unfold record_of at 1. cbn [truthy app]. rewrite decode_loop_blank.
    constructor; [reflexivity | exact (IH Hall')].
  - destruct (Hall (String c l)) as [Hfirst [text Hstored]];
      [left | discriminate |].
    unfold record_of at 1. cbn [truthy].
    rewrite (decode_loop_digest_head store _ _ Hfirst).
    rewrite decode_hash_digest, Hstored.
    constructor; [|exact (IH Hall')].
    cbn [truthy]. exists text. split; [reflexivity | exact Hstored].
Qed.

Lemma output_lines_aligned (ls : list string) (ps : list printed) :
  Forall2 (fun (_ : string) p => is_Some (output_line p)) ls ps ->
  length (output_lines ps) = length ls.
Proof.
  induction 1 as [|l p ls ps [line Hp] _ IH]; [reflexivity|].
  unfold output_lines in *. cbn [omap list_omap length].
  rewrite Hp. cbn [length]. f_equal. exact IH.
Qed.

(** X10: with colliding lines the decoded text is still aligned with the
    input: when no hash starts with the marker byte, decoding what encoding
    wrote prints exactly one line per input line, a blank one for each
    blank line and, for each other line, the text the store holds under
    that line's hash. *)
Theorem decode_of_encode_line_by_line
    (xxh32 : string -> xxhash.xxh32) (store : gmap string string)
    (lines : list string) :
  Forall (fun l => no_newline l = true) lines ->
  no_marker_prefix xxh32 lines ->
  let store' := fst (fst (encode_loop xxh32 store (map terminated lines))) in
  let stream := snd (fst (encode_loop xxh32 store (map terminated lines))) in
  Forall2
    (fun line p =>
       if truthy line
       then exists text,
              p = TextLine text
              /\ store' !! xxhash.hexdigest (xxh32 line) = Some text
       else p = BlankLine)
    lines (decode_loop store' stream)
  /\ length (output_lines (decode_loop store' stream)) = length lines.
Proof.
  intros Hnl Hmarker store' stream.
  assert (stream = concat (map (record_of xxh32) lines)) as ->.
  { unfold stream. rewrite encode_loop_stream.
    rewrite records_terminated by exact Hnl. reflexivity. }
  assert (Forall2
            (fun line p =>
               if truthy line
               then exists text,
                      p = TextLine text
                      /\ store' !! xxhash.hexdigest (xxh32 line) = Some text
               else p = BlankLine)
            lines (decode_loop store' (concat (map (record_of xxh32) lines))))
    as HF.
  { apply decode_records_present. intros l Hin Hne.
    split; [apply Hmarker; assumption|].
    pose proof (encode_fold_present xxh32 (map terminated lines) store [] []
                  (terminated l)) as Hp.
    rewrite list_elem_of_fmap in Hp.
    rewrite (rstrip_nl_terminated l) in Hp.
    - apply Hp; [exists l; auto | apply truthy_true; exact Hne].
    - rewrite Forall_forall in Hnl. apply Hnl. exact Hin. }
  split; [exact HF|].
  apply output_lines_aligned.
  eapply Forall2_impl; [exact HF|].
  intros l p Hlp. cbn beta in Hlp. destruct (truthy l).
  - destruct Hlp as (text & -> & _). cbn. eauto.
  - subst p. cbn. eauto.
Qed.

Lemma decode_of_encode_line_by_line_witness :
  let lines := ["dog"; EmptyString; "cat"] in
  let store := <["79e3115b" := "wolf"]> ∅ in
  Forall (fun l => no_newline l = true) lines
  /\ no_marker_prefix xxh32_seed0 lines
  /\ length
       (output_lines
          (decode_loop
             (fst (fst (encode_loop xxh32_seed0 store (map terminated lines))))
             (snd (fst (encode_loop xxh32_seed0 store
                          (map terminated lines))))))
     = 3%nat
  /\ output_lines
       (decode_loop
          (fst (fst (encode_loop xxh32_seed0 store (map terminated lines))))
          (snd (fst (encode_loop xxh32_seed0 store (map terminated lines)))))
     = ["wolf"; EmptyString; "cat"].
Proof.
  intros lines store.
  assert (Forall (fun l => no_newline l = true) lines) as H1
    by (repeat constructor).
  assert (no_marker_prefix xxh32_seed0 lines) as H2.
  { intros l Hin Hne. unfold lines in *.
    elem_cases Hin; try congruence; vm_compute; discriminate. }
  split; [exact H1|]. split; [exact H2|].
  split; [exact (proj2 (decode_of_encode_line_by_line xxh32_seed0 store lines
                          H1 H2))|].
  vm_compute. reflexivity.
Defined.

(** ** The process, further *)

Lemma init_quiet (w : os) (db_path : string) (p : process) :
  match HashStore.__init__ w db_path p with
  | (Exits _, _) => False
  | (_, p') => files p' = files p /\ blobs p' = blobs p
  end.
Proof.
  unfold HashStore.__init__, HashStore._load.
  destruct (path_exists w db_path).
  - destruct (gzip_pickle_load w db_path) as [e|d].
    + destruct (is_IOError e || is_UnpicklingError e); run; auto.
    + run. auto.
  - run. auto.
Qed.

(** X11: the constructor of [HashStore] never leaves through [sys.exit]
    and writes nothing. It returns with the dictionary that the store file
    holds, or with the empty dictionary when the file is missing or its
    load ends in an [IOError] or [UnpicklingError] (a warning is printed
    then); any other exception of the load escapes. *)
Theorem store_constructor_outcomes
    (w : os) (db_path : string) (p : process) :
  match HashStore.__init__ w db_path p with
  | (Returns _, p') =>
      ((path_exists w db_path = false /\ store p' = ∅)
       \/ (path_exists w db_path = true
           /\ gzip_pickle_load w db_path = inr (store p'))
       \/ (path_exists w db_path = true /\ store p' = ∅
           /\ exists e, gzip_pickle_load w db_path = inl e
                        /\ is_IOError e || is_UnpicklingError e = true
                        /\ WarnLoadFailed db_path e ∈ stdout p'))
      /\ files p' = files p /\ blobs p' = blobs p
  | (Exits _, _) => False
  | (Raises e, p') =>
      path_exists w db_path = true
      /\ gzip_pickle_load w db_path = inl e
      /\ is_IOError e = false /\ is_UnpicklingError e = false
      /\ files p' = files p /\ blobs p' = blobs p
  end.
Proof.
  unfold HashStore.__init__, HashStore._load.
  destruct (path_exists w db_path) eqn:Ex.
  - destruct (gzip_pickle_load w db_path) as [e|d] eqn:El.
    + destruct (is_IOError e || is_UnpicklingError e) eqn:Ec; run.
      * split; [|auto]. right. right.
        split; [reflexivity|]. split; [reflexivity|].
        exists e. split; [reflexivity|]. split; [exact Ec|].
        apply elem_of_app. right. left.
      * apply orb_false_iff in Ec as [? ?]. repeat split; auto.
    + run. split; [|auto]. right. left. auto.
  - run. split; [|auto]. left. auto.
Qed.

Lemma encode_with_fault_none xxh32 fault store infile r :
  encode_with_fault xxh32 fault store infile = (r, None) ->
  r = encode_loop xxh32 store infile.
Proof.
  unfold encode_with_fault. destruct fault as [|n e|n e].
  - intros H. injection H as <-. reflexivity.
  - destruct (n <=? length infile)%nat; intros H; [discriminate H|].
    injection H as <-. reflexivity.
  - destruct (infile !! n) as [raw|]; [|intros H; discriminate H].
    destruct (encode_loop xxh32 store (take n infile)) as [[d outfile] out].
    destruct (encode_line xxh32 (d, outfile, out) raw) as [[d' o'] out'].
    intros H. discriminate H.
Qed.

Lemma encode_with_fault_keeps xxh32 fault store infile k v :
  store !! k = Some v ->
  fst (fst (fst (encode_with_fault xxh32 fault store infile))) !! k = Some v.
Proof.
  intros Hk. unfold encode_with_fault. destruct fault as [|n e|n e].
  - cbn [fst]. apply encode_fold_keeps. exact Hk.
  - destruct (n <=? length infile)%nat; cbn [fst];
      apply encode_fold_keeps; exact Hk.
  - destruct (infile !! n) as [raw|];
      [|cbn [fst]; apply encode_fold_keeps; exact Hk].
    pose proof (encode_fold_keeps xxh32 (take n infile) store [] [] k v Hk)
      as H1.
    fold (encode_loop xxh32 store (take n infile)) in H1.
    destruct (encode_loop xxh32 store (take n infile)) as [[d outfile] out].
    cbn [fst] in H1.
    pose proof (encode_line_keeps xxh32 d outfile out raw k v H1) as H2.
    destruct (encode_line xxh32 (d, outfile, out) raw) as [[d' o'] out'].
    exact H2.
Qed.

Lemma encode_action_quiet xxh32 (w : os) (input_file output_file : string)
    (p : process) :
  blobs (snd (process_and_encode xxh32 w input_file output_file p)) = blobs p
  /\ forall status,
       fst (process_and_encode xxh32 w input_file output_file p)
       = Exits status ->
       status = 1.
Proof.
  unfold process_and_encode.
  destruct (path_exists w input_file); cbn [negb];
    [|run; split; [reflexivity | intros status [= <-]; reflexivity]].
  destruct (open_text w input_file) as [e|lines].
  - destruct (is_IOError e); run;
      (split; [reflexivity | intros status [= <-] || intros status [=]]);
      reflexivity.
  - destruct (open_write w output_file) as [e|].
    + destruct (is_IOError e); run;
        (split; [reflexivity | intros status [= <-] || intros status [=]]);
        reflexivity.
    + run.
      destruct (encode_with_fault xxh32 _ _ _) as [[[d' outfile] out] [e|]].
      * destruct (is_IOError e); run;
          (split; [reflexivity | intros status [= <-] || intros status [=]]);
          reflexivity.
      * run. split; [reflexivity | intros status [=]].
Qed.

(** X12: how [process_and_encode] can end. It never saves the store and
    never removes or changes an entry of the dictionary. It leaves by
    returning, by [sys.exit(1)] or by an exception that is no [IOError].
    When it returns, both files were opened, the lines read are those of
    the input (none when the output file is the input file itself, which
    opening it for writing has emptied), the dictionary is the one the
    encoding loop leaves on them and the output file holds the bytes the
    loop wrote. When the input is missing or one of the two files cannot
    be opened, the dictionary is untouched and no file is written. *)
Theorem process_and_encode_outcomes
    (xxh32 : string -> xxhash.xxh32) (w : os)
    (input_file output_file : string) (p : process) :
  let r := process_and_encode xxh32 w input_file output_file p in
  blobs (snd r) = blobs p
  /\ store p ⊆ store (snd r)
  /\ match fst r with
     | Returns _ =>
         exists lines,
           path_exists w input_file = true
           /\ open_text w input_file = inr lines
           /\ open_write w output_file = None
           /\ store (snd r)
              = fst (fst (encode_loop xxh32 (store p)
                            (if same_file w input_file output_file
                             then [] else lines)))
           /\ files (snd r)
              = files p
                ++ [(output_file,
                     snd (fst (encode_loop xxh32 (store p)
                                 (if same_file w input_file output_file
                                  then [] else lines))))]
     | Exits status => status = 1
     | Raises e => is_IOError e = false
     end
  /\ (path_exists w input_file = false
      \/ (exists e, open_text w input_file = inl e)
      \/ (exists e, open_write w output_file = Some e) ->
      store (snd r) = store p /\ files (snd r) = files p).
Proof.
  unfold process_and_encode.
  destruct (path_exists w input_file) eqn:Ex; cbn [negb];
    [|run; repeat split; auto].
  destruct (open_text w input_file) as [e|lines] eqn:Eo.
  - destruct (is_IOError e) eqn:Ee; run; repeat split; auto.
  - destruct (open_write w output_file) as [e|] eqn:Ew.
    + destruct (is_IOError e) eqn:Ee; run; repeat split; auto.
    + run.
      pose proof (encode_with_fault_none xxh32
                    (encode_fault w input_file output_file) (store p)
                    (if same_file w input_file output_file
                     then [] else lines)) as Hnone.
      assert (store p
              ⊆ fst (fst (fst (encode_with_fault xxh32
                                 (encode_fault w input_file output_file)
                                 (store p)
                                 (if same_file w input_file output_file
                                  then [] else lines))))) as Hsub.
      { apply map_subseteq_spec. intros k v Hk.
        apply encode_with_fault_keeps. exact Hk. }
      destruct (encode_with_fault xxh32 _ _ _) as [[[d' outfile] out] [e|]].
      * cbn [fst] in Hsub.
        destruct (is_IOError e) eqn:Ee; run;
          (split; [reflexivity|]); (split; [exact Hsub|]);
          (split; [reflexivity || exact Ee|]);
          intros [H|[[e0 H]|[e0 H]]]; discriminate H.
      * cbn [fst] in Hsub. run.
        split; [reflexivity|]. split; [exact Hsub|].
        split; [|intros [H|[[e0 H]|[e0 H]]]; discriminate H].
        exists lines. rewrite <- (Hnone _ eq_refl). auto.
Qed.

Lemma process_and_encode_outcomes_witness :
  path_exists os_encode_run "gone.txt" = false
  /\ store (snd (process_and_encode xxh32_seed0 os_encode_run
                   "gone.txt" "out.bin" initial)) = ∅
  /\ files (snd (process_and_encode xxh32_seed0 os_encode_run
                   "gone.txt" "out.bin" initial)) = [].
Proof.
  split; [reflexivity|].
  pose proof (process_and_encode_outcomes xxh32_seed0 os_encode_run
                "gone.txt" "out.bin" initial) as H.
  cbv zeta in H. destruct H as (_ & _ & _ & H).
  exact (H (or_introl eq_refl)).
Defined.

(** Writing in place: with "in.txt" as its own output, the run returns, the
    file is left empty and the dictionary is unchanged. *)
Example encode_onto_input :
  process_and_encode xxh32_seed0 os_encode_run "in.txt" "in.txt" initial
  = (Returns tt,
     {| store := ∅;
        stdout := [EncodingStart "in.txt" "in.txt"; EncodingComplete];
        files := [("in.txt", [])]; blobs := [] |}).
Proof. vm_compute. reflexivity. Qed.

(** A full disk: the write of the third record raises an [IOError]. The
    call ends in [sys.exit(1)] after "foo" and "bar" have entered the
    dictionary and the output file has been created. *)
Example encode_disk_full :
  let r := process_and_encode xxh32_seed0 os_encode_disk_full
             "in.txt" "out.bin" initial in
  fst r = Exits 1
  /\ store (snd r) = <["e20f0dd9" := "foo"]> (<["41a22b2c" := "bar"]> ∅)
  /\ files (snd r) = [("out.bin", [xe2; x0f; x0d; xd9; x00])]
  /\ exit_status (main xxh32_seed0 os_encode_disk_full
                    (encode_args_of "dedupe_main.db" "in.txt" "out.bin")
                    initial) = 1
  /\ blobs (snd (main xxh32_seed0 os_encode_disk_full
                    (encode_args_of "dedupe_main.db" "in.txt" "out.bin")
                    initial)) = [].
Proof. vm_compute. repeat split; reflexivity. Qed.

Lemma seed_files_outcomes xxh32 w files_ : forall unique total p,
  match seed_files xxh32 w files_ unique total p with
  | (Returns counts, p') =>
      (size (store p') + unique = size (store p) + fst counts)%nat
      /\ (total <= snd counts)%nat
      /\ store p ⊆ store p'
      /\ files p' = files p /\ blobs p' = blobs p
  | (Exits _, _) => False
  | (Raises e, p') =>
      is_IOError e = false /\ blobs p' = blobs p /\ files p' = files p
  end.
Proof.
  induction files_ as [|filepath rest IH]; intros unique total p.
  - cbn. run. repeat split; auto.
  - cbn [seed_files].
    destruct (open_text w filepath) as [e|infile] eqn:Eo.
    + destruct (is_IOError e) eqn:Ee; [|run; auto].
      run.
      specialize (IH unique total
                    {| store := store p;
                       stdout := stdout p ++ [ErrorProcessing filepath e];
                       files := files p; blobs := blobs p |}).
      destruct (seed_files xxh32 w rest unique total _) as [[counts|n|e'] p'];
        exact IH.
    + run.
      pose proof (seed_fold_counts xxh32 infile (store p) unique total [])
        as Hc.
      pose proof (fun k v => seed_fold_keeps xxh32 infile (store p) unique
                               total [] k v) as Hk.
      destruct (fold_left (seed_line xxh32) infile
                  (store p, unique, total, []))
        as [[[d' unique'] total'] out].
      cbn [fst] in Hk. destruct Hc as (-> & Hs & Hu). run.
      specialize (IH unique' (total + length infile)%nat
                    {| store := d';
                       stdout := (stdout p ++ [ProcessingFile filepath])
                                 ++ out;
                       files := files p; blobs := blobs p |}).
      destruct (seed_files xxh32 w rest unique' _ _) as [[counts|n|e'] p'];
        cbn [store files blobs] in IH; [|exact IH|exact IH].
      destruct IH as (Hs' & Ht' & Hsub & Hf & Hb).
      repeat split; try assumption; try lia.
      etransitivity; [|exact Hsub].
      apply map_subseteq_spec. exact Hk.
Qed.

(** X13: seeding reports what it did: when [seed_from_glob] has files to
    read, it never leaves through [sys.exit], and if it returns, the last
    thing printed is the number of new unique lines, which is the number of
    entries the dictionary gained; nothing stored before is lost and no
    file is written. *)
Theorem seed_from_glob_report
    (xxh32 : string -> xxhash.xxh32) (w : os) (glob_pattern : string)
    (p : process) :
  glob_glob w glob_pattern false <> [] ->
  match seed_from_glob xxh32 w glob_pattern p with
  | (Returns _, p') =>
      exists before total unique,
        stdout p'
        = before ++ [SeedingComplete; TotalLines total;
                     NewUniqueLines unique]
        /\ size (store p') = (size (store p) + unique)%nat
        /\ store p ⊆ store p'
        /\ files p' = files p /\ blobs p' = blobs p
  | (Exits _, _) => False
  | (Raises e, p') => is_IOError e = false
  end.
Proof.
  intros Hglob. unfold seed_from_glob.
  destruct (glob_glob w glob_pattern false) as [|f fs]; [contradiction|].
  pose proof (seed_files_outcomes xxh32 w (f :: fs) 0%nat 0%nat p) as H.
  run.
  destruct (seed_files xxh32 w (f :: fs) 0 0 p) as [[counts|n|e] p'];
    [|exact H|apply H].
  destruct H as (Hs & _ & Hsub & Hf & Hb). run.
  exists (stdout p'), (snd counts), (fst counts).
  repeat split; try assumption; try lia.
  rewrite <- !app_assoc. reflexivity.
Qed.

Lemma decode_and_print_outcomes (w : os) (hash_file : string) (p : process) :
  match decode_and_print w hash_file p with
  | (Returns _, p') =>
      exists infile,
        open_binary w hash_file = inr infile
        /\ stdout p'
           = stdout p ++ [DecodingStart hash_file]
             ++ decode_loop (store p) infile ++ [DecodingComplete]
  | (Exits status, _) => status = 1
  | (Raises e, _) => is_IOError e = false
  end.
Proof.
  unfold decode_and_print.
  destruct (path_exists w hash_file); cbn [negb]; [|run; reflexivity].
  destruct (open_binary w hash_file) as [e|infile].
  - destruct (is_IOError e) eqn:Ee; run; auto.
  - run. exists infile. split; [reflexivity|].
    rewrite <- !app_assoc. reflexivity.
Qed.

Lemma decode_and_print_blobs (w : os) (hash_file : string) (p : process) :
  blobs (snd (decode_and_print w hash_file p)) = blobs p.
Proof.
  unfold decode_and_print.
  destruct (path_exists w hash_file); cbn [negb]; [|run; reflexivity].
  destruct (open_binary w hash_file) as [e|infile];
    [destruct (is_IOError e)|]; run; reflexivity.
Qed.

(** What the action chosen by the command line can do: it never saves the
    store, and when it leaves through [sys.exit] the status is not 0. *)
Lemma action_outcomes xxh32 w (a : args) (p : process) :
  let action :=
    match given (seed a) with
    | Some glob_pattern => seed_from_glob xxh32 w glob_pattern
    | None =>
        match given (input a) with
        | Some input_file =>
            match given (output a) with
            | Some output_file =>
                process_and_encode xxh32 w input_file output_file
            | None => sys_exit 2
            end
        | None =>
            match given (decode a) with
            | Some hash_file => decode_and_print w hash_file
            | None => mret tt
            end
        end
    end in
  blobs (snd (action p)) = blobs p
  /\ forall status, fst (action p) = Exits status -> status <> 0.
Proof.
  intros action. unfold action. clear action.
  destruct (given (seed a)) as [glob_pattern|].
  - unfold seed_from_glob.
    destruct (glob_glob w glob_pattern false) as [|f fs] eqn:Eg.
    + run. split; [reflexivity | discriminate].
    + pose proof (seed_files_outcomes xxh32 w (f :: fs) 0%nat 0%nat p) as H.
      run.
      destruct (seed_files xxh32 w (f :: fs) 0 0 p) as [[counts|n|e] p'];
        [|contradiction|].
      * run. split; [apply H | discriminate].
      * split; [apply H | discriminate].
  - destruct (given (input a)) as [input_file|].
    + destruct (given (output a)) as [output_file|].
      * pose proof (encode_action_quiet xxh32 w input_file
                      output_file p) as [Hb H].
        split; [exact Hb|]. intros status E.
        rewrite (H status E). discriminate.
      * run. split; [reflexivity|]. intros status [= <-]. discriminate.
    + destruct (given (decode a)) as [hash_file|].
      * split; [apply decode_and_print_blobs|].
        intros status E.
        pose proof (decode_and_print_outcomes w hash_file p) as H.
        destruct (decode_and_print w hash_file p) as [[[]|n|e] p'];
          cbn [fst] in E; try discriminate.
        injection E as ->. subst status. discriminate.
      * run. split; [reflexivity | discriminate].
Qed.

(** X14: [main] saves the store exactly when it ends with status 0, and
    then once, the dictionary it ends with; whenever the status is not 0
    (a failed action, an exception, a store file that cannot be written)
    nothing is saved. In particular a store file that cannot be written
    never goes with status 0. *)
Theorem main_saves_iff_success
    (xxh32 : string -> xxhash.xxh32) (w : os) (a : args) :
  let r := main xxh32 w a initial in
  (exit_status r = 0 ->
   open_write w (db a) = None
   /\ blobs (snd r) = [(db a, store (snd r))])
  /\ (exit_status r <> 0 -> blobs (snd r) = []).
Proof.
  intros r. unfold exit_status.
  remember (main xxh32 w a initial) as res eqn:Er. subst r.
  unfold main in Er. unfold mbind, M_bind in Er.
  pose proof (init_quiet w (db a) initial) as Hinit.
  destruct (HashStore.__init__ w (db a) initial) as [[[]|n|e] p1];
    [|contradiction|].
  - destruct Hinit as (_ & Hb1). cbn [blobs initial] in Hb1.
    pose proof (action_outcomes xxh32 w a p1) as [Hb2 Hexit].
    cbn zeta in Hb2, Hexit.
    match type of Er with
    | context [match ?act p1 with _ => _ end] =>
        destruct (act p1) as [[[]|n|e] p2]
    end; cbn [fst snd] in *.
    + unfold HashStore.save in Er.
      destruct (open_write w (db a)) as [e|].
      * destruct (is_IOError e); run; subst res; cbn [fst snd blobs];
          (split; [discriminate | intros _; congruence]).
      * run. subst res. cbn [fst snd blobs store].
        split; [|intros H; contradiction H; reflexivity].
        intros _. split; [reflexivity|]. rewrite Hb2, Hb1. reflexivity.
    + subst res. cbn [fst snd].
      split; [intros E; exfalso; exact (Hexit n eq_refl E)|].
      intros _. congruence.
    + subst res. cbn [fst snd].
      split; [discriminate | intros _; congruence].
  - subst res. cbn [fst snd]. split; [discriminate|]. intros _.
    destruct Hinit as (_ & Hb). exact Hb.
Qed.

Lemma seed_from_glob_report_witness :
  glob_glob os_seed_run "corpus/*.txt" false <> []
  /\ exists p',
       seed_from_glob xxh32_seed0 os_seed_run "corpus/*.txt" initial
       = (Returns tt, p')
       /\ size (store p') = 3%nat
       /\ stdout p'
          = [ProcessingFile "corpus/a.txt";
             ErrorProcessing "corpus/gone.txt" FileNotFoundError;
             ProcessingFile "corpus/b.txt";
             SeedingComplete; TotalLines 6; NewUniqueLines 3].
Proof.
  assert (glob_glob os_seed_run "corpus/*.txt" false <> []) as H
    by discriminate.
  split; [exact H|].
  pose proof (seed_from_glob_report xxh32_seed0 os_seed_run "corpus/*.txt"
                initial H) as Hr.
  destruct (seed_from_glob xxh32_seed0 os_seed_run "corpus/*.txt" initial)
    as [[[]|n|e] p'] eqn:E; [|contradiction|].
  - exists p'. split; [reflexivity|].
    assert (p' = snd (seed_from_glob xxh32_seed0 os_seed_run "corpus/*.txt"
                        initial)) as -> by (rewrite E; reflexivity).
    split; vm_compute; reflexivity.
  - exfalso. vm_compute in E. discriminate.
Defined.

(** Seeding skips the files it cannot open; what it returns and stores
    depends on the dictionary alone, not on what was printed before. *)
Lemma seed_files_skip xxh32 w files_ : forall unique total p q,
  (forall f e, f ∈ files_ -> open_text w f = inl e -> is_IOError e = true) ->
  store p = store q ->
  fst (seed_files xxh32 w files_ unique total p)
  = fst (seed_files xxh32 w (List.filter (readable w) files_) unique total q)
  /\ store (snd (seed_files xxh32 w files_ unique total p))
     = store (snd (seed_files xxh32 w (List.filter (readable w) files_)
                     unique total q)).
Proof.
  induction files_ as [|f rest IH]; intros unique total p q Hio Hpq;
    [split; [reflexivity | exact Hpq]|].
  assert (forall f' e, f' ∈ rest -> open_text w f' = inl e ->
                       is_IOError e = true) as Hio'
    by (intros f' e Hin; apply Hio; right; exact Hin).
  cbn [List.filter seed_files].
  destruct (open_text w f) as [e|infile] eqn:Eo.
  - assert (readable w f = false) as -> by (unfold readable; rewrite Eo; reflexivity).
    rewrite (Hio f e ltac:(left) Eo). run. apply IH; [exact Hio' | exact Hpq].
  - assert (readable w f = true) as -> by (unfold readable; rewrite Eo; reflexivity).
    cbn [seed_files]. rewrite Eo. run. rewrite <- Hpq.
    destruct (fold_left (seed_line xxh32) infile (store p, unique, total, []))
      as [[[d' unique'] total'] out].
    run. apply IH; [exact Hio' | reflexivity].
Qed.

Lemma seed_files_readable_returns xxh32 w files_ : forall unique total p,
  exists counts p',
    seed_files xxh32 w (List.filter (readable w) files_) unique total p
    = (Returns counts, p').
Proof.
  induction files_ as [|f rest IH]; intros unique total p.
  - cbn. run. eauto.
  - cbn [List.filter].
    destruct (open_text w f) as [e0|infile] eqn:Eo.
    + assert (readable w f = false) as ->
        by (unfold readable; rewrite Eo; reflexivity).
      apply IH.
    + assert (readable w f = true) as ->
        by (unfold readable; rewrite Eo; reflexivity).
      cbn [seed_files]. rewrite Eo. run.
      destruct (fold_left (seed_line xxh32) infile
                  (store p, unique, total, []))
        as [[[d' unique'] total'] out].
      run. apply IH.
Qed.

(** X15: files that cannot be opened are skipped: when every failure to
    open a matching file is an [IOError], seeding returns, and with the
    same counters and the same dictionary as seeding from the readable
    files alone. *)
Theorem seeding_skips_unreadable_files
    (xxh32 : string -> xxhash.xxh32) (w : os) (files_ : list string)
    (p : process) :
  (forall f e, f ∈ files_ -> open_text w f = inl e -> is_IOError e = true) ->
  exists counts,
    fst (seed_files xxh32 w files_ 0%nat 0%nat p) = Returns counts
    /\ fst (seed_files xxh32 w (List.filter (readable w) files_)
              0%nat 0%nat p) = Returns counts
    /\ store (snd (seed_files xxh32 w files_ 0%nat 0%nat p))
       = store (snd (seed_files xxh32 w (List.filter (readable w) files_)
                       0%nat 0%nat p)).
Proof.
  intros Hio.
  destruct (seed_files_skip xxh32 w files_ 0%nat 0%nat p p Hio eq_refl)
    as [Hfst Hstore].
  destruct (seed_files_readable_returns xxh32 w files_ 0%nat 0%nat p)
    as (counts & p' & E).
  rewrite E in Hfst, Hstore |- *. cbn [fst] in *.
  exists counts. auto.
Qed.

Lemma seeding_skips_unreadable_files_witness :
  let files_ := ["corpus/a.txt"; "corpus/gone.txt"; "corpus/b.txt"] in
  (forall f e, f ∈ files_ -> open_text os_seed_run f = inl e ->
               is_IOError e = true)
  /\ List.filter (readable os_seed_run) files_
     = ["corpus/a.txt"; "corpus/b.txt"]
  /\ exists counts,
       fst (seed_files xxh32_seed0 os_seed_run files_ 0%nat 0%nat initial)
       = Returns counts
       /\ fst (seed_files xxh32_seed0 os_seed_run
                 ["corpus/a.txt"; "corpus/b.txt"] 0%nat 0%nat initial)
          = Returns counts.
Proof.
  intros files_.
  assert (forall f e, f ∈ files_ -> open_text os_seed_run f = inl e ->
                      is_IOError e = true) as H.
  { intros f e Hin Ho. unfold files_ in Hin.
    elem_cases Hin; vm_compute in Ho; try discriminate.
    injection Ho as <-. reflexivity. }
  split; [exact H|]. split; [reflexivity|].
  destruct (seeding_skips_unreadable_files xxh32_seed0 os_seed_run files_
              initial H) as (counts & H1 & H2 & _).
  exists counts. split; [exact H1 | exact H2].
Defined.

(** ** Two runs of the command line *)

Lemma encode_then_decode_lines xxh32 store lines :
  Forall (fun l => no_newline l = true) lines ->
  distinct_hashes xxh32 lines ->
  no_marker_prefix xxh32 lines ->
  compatible xxh32 lines store ->
  output_lines
    (decode_loop (fst (fst (encode_loop xxh32 store (map terminated lines))))
       (snd (fst (encode_loop xxh32 store (map terminated lines)))))
  = lines.
Proof.
  intros Hnl Hdistinct Hmarker Hcompat.
  rewrite encode_loop_stream, records_terminated by exact Hnl.
  destruct (encode_fold_store xxh32 lines Hdistinct lines Hnl
              (fun l H => H) store [] [] Hcompat) as (_ & _ & Hstored).
  fold (encode_loop xxh32 store (map terminated lines)) in Hstored.
  rewrite decode_records; [apply output_lines_printed|].
  intros l Hin Hne. split; [apply Hmarker|]; auto.
Qed.

Lemma main_encode_run xxh32 w db_path input_file output_file infile p0 :
  truthy input_file = true ->
  truthy output_file = true ->
  HashStore.__init__ w db_path initial = (Returns tt, p0) ->
  path_exists w input_file = true ->
  open_text w input_file = inr infile ->
  open_write w output_file = None ->
  open_write w db_path = None ->
  same_file w input_file output_file = false ->
  encode_fault w input_file output_file = NoFault ->
  fst (main xxh32 w (encode_args_of db_path input_file output_file) initial)
  = Returns tt
  /\ files (snd (main xxh32 w
                   (encode_args_of db_path input_file output_file) initial))
     = [(output_file, snd (fst (encode_loop xxh32 (store p0) infile)))]
  /\ blobs (snd (main xxh32 w
                   (encode_args_of db_path input_file output_file) initial))
     = [(db_path, fst (fst (encode_loop xxh32 (store p0) infile)))].
Proof.
  intros Hi Ho Hinit Hex Hopen Hw Hwdb Hsame Hfault.
  pose proof (init_quiet w db_path initial) as Hc.
  rewrite Hinit in Hc. destruct Hc as (Hf0 & Hb0).
  cbn [files blobs initial] in Hf0, Hb0.
  unfold main, encode_args_of, given. cbn [seed input decode output db].
  rewrite Hi, Ho. unfold process_and_encode, HashStore.save.
  rewrite Hex, Hopen, Hw, Hwdb, Hsame, Hfault. cbn [negb].
  unfold encode_with_fault. run. rewrite Hinit.
  destruct (encode_loop xxh32 (store p0) infile) as [[d' outfile] out].
  run. rewrite Hf0, Hb0. auto.
Qed.

Lemma main_decode_run xxh32 w db_path hash_file d infile :
  truthy hash_file = true ->
  path_exists w db_path = true ->
  gzip_pickle_load w db_path = inr d ->
  path_exists w hash_file = true ->
  open_binary w hash_file = inr infile ->
  output_lines
    (stdout (snd (main xxh32 w (decode_args_of db_path hash_file) initial)))
  = output_lines (decode_loop d infile).
Proof.
  intros Hh Hexdb Hload Hex Hopen.
  unfold main, decode_args_of, given. cbn [seed input decode output db].
  rewrite Hh. unfold HashStore.__init__, HashStore._load, decode_and_print,
    HashStore.save.
  rewrite Hexdb, Hload, Hex, Hopen. cbn [negb]. run.
  destruct (open_write w db_path) as [e|]; [destruct (is_IOError e)|]; run;
    rewrite ?output_lines_app; cbn [app]; unfold output_lines at 1 3 4 5;
    cbn [omap list_omap output_line app];
    rewrite ?app_nil_r; reflexivity.
Qed.

(** X16: round trip through the command line. An encode run whose output
    file is neither the input file nor the store file, which no I/O fault
    strikes, on a file of lines with pairwise-distinct hashes, none starting
    with the marker byte, against a store without other text under those
    hashes, ends with status 0; and a decode run in any world that reads
    back the store and the output file this run wrote prints exactly the
    original lines. *)
Theorem cli_round_trip
    (xxh32 : string -> xxhash.xxh32) (w1 w2 : os)
    (db_path input_file output_file : string) (lines : list string)
    (p0 : process) :
  truthy input_file = true ->
  truthy output_file = true ->
  HashStore.__init__ w1 db_path initial = (Returns tt, p0) ->
  path_exists w1 input_file = true ->
  open_text w1 input_file = inr (map terminated lines) ->
  open_write w1 output_file = None ->
  open_write w1 db_path = None ->
  same_file w1 input_file output_file = false ->
  same_file w1 output_file db_path = false ->
  encode_fault w1 input_file output_file = NoFault ->
  Forall (fun l => no_newline l = true) lines ->
  distinct_hashes xxh32 lines ->
  no_marker_prefix xxh32 lines ->
  compatible xxh32 lines (store p0) ->
  path_exists w2 db_path = true ->
  path_exists w2 output_file = true ->
  (forall d,
      (db_path, d)
      ∈ blobs (snd (main xxh32 w1
                      (encode_args_of db_path input_file output_file)
                      initial)) ->
      gzip_pickle_load w2 db_path = inr d) ->
  (forall outfile,
      (output_file, outfile)
      ∈ files (snd (main xxh32 w1
                      (encode_args_of db_path input_file output_file)
                      initial)) ->
      open_binary w2 output_file = inr outfile) ->
  exit_status (main xxh32 w1 (encode_args_of db_path input_file output_file)
                 initial) = 0
  /\ output_lines
       (stdout (snd (main xxh32 w2 (decode_args_of db_path output_file)
                       initial)))
     = lines.
Proof.
  intros Hi Ho Hinit Hex Hopen Hw Hwdb Hsame _ Hfault Hnl Hdistinct Hmarker
    Hcompat Hexdb2 Hex2 Hload2 Hopen2.
  destruct (main_encode_run xxh32 w1 db_path input_file output_file
              (map terminated lines) p0 Hi Ho Hinit Hex Hopen Hw Hwdb
              Hsame Hfault)
    as (Hret & Hfiles & Hblobs).
  split; [unfold exit_status; rewrite Hret; reflexivity|].
  rewrite Hblobs in Hload2. rewrite Hfiles in Hopen2.
  rewrite (main_decode_run xxh32 w2 db_path output_file _ _ Ho Hexdb2
             (Hload2 _ ltac:(left)) Hex2 (Hopen2 _ ltac:(left))).
  apply encode_then_decode_lines; assumption.
Qed.

Lemma cli_round_trip_witness :
  let lines := ["foo"; EmptyString; "bar"] in
  truthy "in.txt" = true
  /\ truthy "out.bin" = true
  /\ HashStore.__init__ os_encode_run "dedupe_main.db" initial
     = (Returns tt,
        {| store := ∅; stdout := [NoExistingStore "dedupe_main.db"];
           files := []; blobs := [] |})
  /\ open_text os_encode_run "in.txt" = inr (map terminated lines)
  /\ same_file os_encode_run "in.txt" "out.bin" = false
  /\ same_file os_encode_run "out.bin" "dedupe_main.db" = false
  /\ encode_fault os_encode_run "in.txt" "out.bin" = NoFault
  /\ Forall (fun l => no_newline l = true) lines
  /\ distinct_hashes xxh32_seed0 lines
  /\ no_marker_prefix xxh32_seed0 lines
  /\ (forall d,
         (("dedupe_main.db" : string), d)
         ∈ blobs (snd (main xxh32_seed0 os_encode_run
                         (encode_args_of "dedupe_main.db" "in.txt" "out.bin")
                         initial)) ->
         gzip_pickle_load os_decode_run "dedupe_main.db" = inr d)
  /\ (forall outfile,
         (("out.bin" : string), outfile)
         ∈ files (snd (main xxh32_seed0 os_encode_run
                         (encode_args_of "dedupe_main.db" "in.txt" "out.bin")
                         initial)) ->
         open_binary os_decode_run "out.bin" = inr outfile)
  /\ exit_status (main xxh32_seed0 os_encode_run
                    (encode_args_of "dedupe_main.db" "in.txt" "out.bin")
                    initial) = 0
  /\ output_lines
       (stdout (snd (main xxh32_seed0 os_decode_run
                       (decode_args_of "dedupe_main.db" "out.bin") initial)))
     = lines.
Proof.
  intros lines.
  assert (Forall (fun l => no_newline l = true) lines) as Hnl
    by (repeat constructor).
  assert (distinct_hashes xxh32_seed0 lines) as Hd.
  { intros l1 l2 Hin1 Hin2 Hne1 Hne2 Hd. unfold lines in *.
    elem_cases Hin1; elem_cases Hin2; try congruence;
      vm_compute in Hd; discriminate. }
  assert (no_marker_prefix xxh32_seed0 lines) as Hm.
  { intros l Hin Hne. unfold lines in *.
    elem_cases Hin; try congruence; vm_compute; discriminate. }
  assert (compatible xxh32_seed0 lines ∅) as Hc.
  { intros l v _ _ Hv. rewrite lookup_empty in Hv. discriminate. }
  assert (blobs (snd (main xxh32_seed0 os_encode_run
                        (encode_args_of "dedupe_main.db" "in.txt" "out.bin")
                        initial))
          = [("dedupe_main.db",
              <["e20f0dd9" := "foo"]> (<["41a22b2c" := "bar"]> ∅))]) as Eb
    by (vm_compute; reflexivity).
  assert (files (snd (main xxh32_seed0 os_encode_run
                        (encode_args_of "dedupe_main.db" "in.txt" "out.bin")
                        initial))
          = [("out.bin", [xe2; x0f; x0d; xd9; x00; x41; xa2; x2b; x2c])])
    as Ef by (vm_compute; reflexivity).
  assert (forall d,
             (("dedupe_main.db" : string), d)
             ∈ blobs (snd (main xxh32_seed0 os_encode_run
                             (encode_args_of "dedupe_main.db" "in.txt"
                                "out.bin") initial)) ->
             gzip_pickle_load os_decode_run "dedupe_main.db" = inr d) as Hl.
  { intros d Hin. rewrite Eb in Hin.
    apply list_elem_of_singleton in Hin. injection Hin as ->. reflexivity. }
  assert (forall outfile,
             (("out.bin" : string), outfile)
             ∈ files (snd (main xxh32_seed0 os_encode_run
                             (encode_args_of "dedupe_main.db" "in.txt"
                                "out.bin") initial)) ->
             open_binary os_decode_run "out.bin" = inr outfile) as Hb.
  { intros outfile Hin. rewrite Ef in Hin.
    apply list_elem_of_singleton in Hin. injection Hin as ->. reflexivity. }
  split; [reflexivity|]. split; [reflexivity|]. split; [reflexivity|].
  split; [reflexivity|]. split; [reflexivity|]. split; [reflexivity|].
  split; [reflexivity|]. split; [exact Hnl|]. split; [exact Hd|].
  split; [exact Hm|]. split; [exact Hl|]. split; [exact Hb|].
  exact (cli_round_trip xxh32_seed0 os_encode_run os_decode_run
           "dedupe_main.db" "in.txt" "out.bin" lines
           {| store := ∅; stdout := [NoExistingStore "dedupe_main.db"];
              files := []; blobs := [] |}
           eq_refl eq_refl eq_refl eq_refl eq_refl eq_refl eq_refl
           eq_refl eq_refl eq_refl
           Hnl Hd Hm Hc eq_refl eq_refl Hl Hb).
Defined.

(** * Properties of [collision_dedup_cli.py] *)

(** ** The hash library and hexadecimal text *)

Example sha256_empty :
  hashlib.sha256_hexdigest []
  = "e3b0c44298fc1c149afbf4c8996fb92427ae41e4649b934ca495991b7852b855".
Proof. vm_compute. reflexivity. Qed.

Example sha256_abc :
  hashlib.sha256_hexdigest (Bytes.of_string "abc")
  = "ba7816bf8f01cfea414140de5dae2223b00361a396177a9cb410ff61f20015ad".
Proof. vm_compute. reflexivity. Qed.

(** Across the padding boundaries: 55, 56 and 64 bytes. *)
Example sha256_padding :
  map (fun n => hashlib.sha256_hexdigest (repeat x61 n)) [55%nat; 56%nat; 64%nat]
  = ["9f4390f8d30c2dd92ec9f095b65e2b9ae9b0a925a5258e241c9f1e910f734318";
     "b35439a4ac6f0948b6d6f9e3c6af0f5f590ce20f1bde7090ef7970686ec6738a";
     "ffe054fe7ae0cb6dc65c3af9b61d5209f439851db43d0ba5997337df154668eb"].
Proof. vm_compute. reflexivity. Qed.

Example ascii_strip_lower :
  ascii_lower (ascii_strip (String tab (" Hello World " +:+ terminated " ")))
  = "hello world".
Proof. reflexivity. Qed.

Lemma sha256_length (data : list byte) :
  length (hashlib.sha256 data) = 32%nat.
Proof.
  unfold hashlib.sha256.
  destruct (hashlib.blocks _ _ _) as [[[[[[[a b] c] d] e] f] g] h].
  reflexivity.
Qed.

Lemma hex_length (bs : list byte) :
  String.length (Bytes.hex bs) = (2 * length bs)%nat.
Proof.
  induction bs as [|b bs IH]; [reflexivity|].
  cbn [Bytes.hex String.length length]. rewrite IH. lia.
Qed.

Lemma slice_from_hex (n : nat) : forall bs,
  slice_from (2 * n) (Bytes.hex bs) = Bytes.hex (drop n bs).
Proof.
  induction n as [|n IH]; intros bs; [reflexivity|].
  destruct bs as [|b bs]; [reflexivity|].
  replace (2 * S n)%nat with (S (S (2 * n))) by lia.
  cbn [Bytes.hex slice_from drop]. apply IH.
Qed.

Lemma bytes_fromhex_byte (b : byte) (rest : string) :
  bytes_fromhex
    (String (Bytes.hex_digit (N.div (Byte.to_N b) 16))
       (String (Bytes.hex_digit (N.modulo (Byte.to_N b) 16)) rest))
  = match bytes_fromhex rest with
    | Some bs => Some (b :: bs)
    | None => None
    end.
Proof. destruct b; reflexivity. Qed.

(** [bytes.fromhex] undoes [bytes.hex]. *)
Lemma bytes_fromhex_hex (bs : list byte) :
  bytes_fromhex (Bytes.hex bs) = Some bs.
Proof.
  induction bs as [|b bs IH]; [reflexivity|].
  cbn [Bytes.hex]. rewrite bytes_fromhex_byte, IH. reflexivity.
Qed.

Lemma generate_hash_hex strip lower text :
  CollisionMain._generate_hash strip lower text
  = Bytes.hex
      (drop 8 (hashlib.sha256 (Bytes.of_string (lower (strip text))))).
Proof.
  unfold CollisionMain._generate_hash, hashlib.sha256_hexdigest.
  exact (slice_from_hex 8 _).
Qed.

Lemma generate_hash_length strip lower text :
  String.length (CollisionMain._generate_hash strip lower text) = 48%nat.
Proof.
  rewrite generate_hash_hex, hex_length, length_drop, sha256_length.
  reflexivity.
Qed.

(** X17: [_generate_hash] returns 48 hexadecimal digits for every text
    (the digest from its seventeenth digit on), so the record that
    [process_file] writes for a line, [bytes.fromhex] of that hash, always
    exists and is 24 bytes long. *)
Theorem generate_hash_is_24_bytes
    (strip lower : string -> string) (text : string) :
  String.length (CollisionMain._generate_hash strip lower text) = 48%nat
  /\ exists record,
       bytes_fromhex (CollisionMain._generate_hash strip lower text)
       = Some record
       /\ length record = 24%nat
       /\ Bytes.hex record = CollisionMain._generate_hash strip lower text.
Proof.
  rewrite generate_hash_hex.
  assert (length (drop 8 (hashlib.sha256
                            (Bytes.of_string (lower (strip text)))))
          = 24%nat) as Hlen
    by (rewrite length_drop, sha256_length; reflexivity).
  split; [rewrite hex_length, Hlen; reflexivity|].
  eexists. split; [apply bytes_fromhex_hex|]. split; [exact Hlen|reflexivity].
Qed.

(** ** Encoding and decoding in the sibling tool *)

Example bytes_fromhex_examples :
  bytes_fromhex (String " " ("aB " +:+ String tab (terminated "0f")))
  = Some [xab; x0f]
  /\ bytes_fromhex "a b" = None
  /\ bytes_fromhex "abc" = None.
Proof. repeat split; reflexivity. Qed.

Lemma sibling_add_item_keys (n : nat) items item_hash original_string :
  map_Forall (fun k (_ : string) => String.length k = n) items ->
  String.length item_hash = n ->
  map_Forall (fun k (_ : string) => String.length k = n)
    (fst (fst (CollisionCli.add_item items item_hash original_string))).
Proof.
  intros Hall Hlen. unfold CollisionCli.add_item.
  destruct (items !! item_hash) as [existing|] eqn:E.
  - destruct (String.eqb existing original_string); exact Hall.
  - cbn [fst]. apply map_Forall_insert_2; assumption.
Qed.

Lemma sibling_encode_line strip lower items outfile count out line :
  exists items' count' out',
    CollisionMain.encode_line strip lower (items, outfile, count, out) line
    = inr (items',
           outfile
           ++ (if truthy (strip line)
               then drop 8 (hashlib.sha256
                              (Bytes.of_string
                                 (lower (strip (strip line)))))
               else [x00]),
           count', out')
    /\ (map_Forall (fun k (_ : string) => String.length k = 48%nat) items ->
        map_Forall (fun k (_ : string) => String.length k = 48%nat) items').
Proof.
  unfold CollisionMain.encode_line.
  destruct (truthy (strip line)); cbn [negb]; [|eauto 6].
  pose proof (fun H => sibling_add_item_keys 48 items
                (CollisionMain._generate_hash strip lower (strip line))
                (strip line) H
                (generate_hash_length strip lower (strip line))) as Hkeys.
  destruct (CollisionCli.add_item items _ (strip line))
    as [[items' is_new] warn].
  rewrite generate_hash_hex, bytes_fromhex_hex. eauto 6.
Qed.

Lemma sibling_encode_loop strip lower infile : forall items outfile count out,
  exists items' outfile' count' out',
    CollisionMain.encode_loop strip lower infile (items, outfile, count, out)
    = inr (items', outfile', count', out')
    /\ length outfile'
       = (length outfile
          + sum_list_with
              (fun line => if truthy (strip line) then 24%nat else 1%nat)
              infile)%nat
    /\ (map_Forall (fun k (_ : string) => String.length k = 48%nat) items ->
        map_Forall (fun k (_ : string) => String.length k = 48%nat) items').
Proof.
  induction infile as [|line infile IH]; intros items outfile count out.
  - exists items, outfile, count, out. cbn. repeat split; auto; lia.
  - cbn [CollisionMain.encode_loop sum_list_with].
    destruct (sibling_encode_line strip lower items outfile count out line)
      as (items1 & count1 & out1 & -> & Hkeys1).
    destruct (IH items1
                (outfile
                 ++ (if truthy (strip line)
                     then drop 8 (hashlib.sha256
                                    (Bytes.of_string
                                       (lower (strip (strip line)))))
                     else [x00])) count1 out1)
      as (items' & outfile' & count' & out' & -> & Hlen & Hkeys).
    exists items', outfile', count', out'.
    split; [reflexivity|]. split; [|auto].
    rewrite Hlen, length_app.
    destruct (truthy (strip line)).
    + rewrite length_drop, sha256_length. lia.
    + cbn [length]. lia.
Qed.

(** X18: the encoding loop of [process_file] never fails on
    [bytes.fromhex], and it writes 24 bytes for every line that is not
    blank after [strip] and one byte for every other line. *)
Theorem sibling_encode_stream_length
    (strip lower : string -> string) (infile : list string)
    (items : gmap string string) :
  exists items' outfile new_lines_count out,
    CollisionMain.encode_loop strip lower infile (items, [], 0%nat, [])
    = inr (items', outfile, new_lines_count, out)
    /\ length outfile
       = sum_list_with
           (fun line => if truthy (strip line) then 24%nat else 1%nat)
           infile.
Proof.
  destruct (sibling_encode_loop strip lower infile items [] 0%nat [])
    as (items' & outfile & count & out & E & Hlen & _).
  exists items', outfile, count, out. split; [exact E | exact Hlen].
Qed.

Lemma sibling_decode_no_text items :
  map_Forall (fun k (_ : string) => String.length k = 48%nat) items ->
  forall f text, CollisionMain.Text text ∉ CollisionMain.decode_loop items f.
Proof.
  intros Hkeys f.
  induction f as [|rest IH|b0 b1 b2 b3 rest Hne IH|b0 tail Hne Hlen]
    using records_ind; intros text Hin.
  - apply elem_of_nil in Hin. exact Hin.
  - cbn [CollisionMain.decode_loop] in Hin.
    change (Byte.eqb x00 x00) with true in Hin. cbn iota in Hin.
    apply elem_of_cons in Hin as [Hin|Hin]; [discriminate|].
    exact (IH text Hin).
  - cbn [CollisionMain.decode_loop] in Hin.
    rewrite (byte_eqb_x00 _ Hne) in Hin.
    apply elem_of_cons in Hin as [Hin|Hin]; [|exact (IH text Hin)].
    unfold CollisionMain.get_string_by_hash in Hin.
    destruct (items !! Bytes.hex [b0; b1; b2; b3]) as [original|] eqn:E;
      [|discriminate].
    apply Hkeys in E. cbn in E. discriminate.
  - cbn [CollisionMain.decode_loop] in Hin.
    rewrite (byte_eqb_x00 _ Hne) in Hin.
    destruct tail as [|b1 [|b2 [|b3 rest']]]; try (simpl in Hlen; lia);
      apply elem_of_cons in Hin as [Hin|Hin]; try discriminate;
      apply elem_of_nil in Hin; exact Hin.
Qed.

Lemma sibling_seed_line_keys _generate_hash strip st line :
  (forall text, String.length (_generate_hash text) = 48%nat) ->
  map_Forall (fun k (_ : string) => String.length k = 48%nat)
    (fst (fst (fst st))) ->
  map_Forall (fun k (_ : string) => String.length k = 48%nat)
    (fst (fst (fst (CollisionCli.seed_line _generate_hash strip st line)))).
Proof.
  intros Hlen Hkeys. destruct st as [[[items n] t] out].
  unfold CollisionCli.seed_line. cbn [fst] in *.
  destruct (truthy (strip line)); cbn [negb]; [|exact Hkeys].
  pose proof (sibling_add_item_keys 48 items (_generate_hash (strip line))
                (strip line) Hkeys (Hlen _)) as H.
  destruct (CollisionCli.add_item items _ (strip line))
    as [[items' is_new] warn].
  exact H.
Qed.

Lemma sibling_seed_fold_keys strip lower to_seed : forall st,
  map_Forall (fun k (_ : string) => String.length k = 48%nat)
    (fst (fst (fst st))) ->
  map_Forall (fun k (_ : string) => String.length k = 48%nat)
    (fst (fst (fst (fold_left
                      (CollisionCli.seed_line
                         (CollisionMain._generate_hash strip lower) strip)
                      to_seed st)))).
Proof.
  induction to_seed as [|line rest IH]; intros st Hst; [exact Hst|].
  cbn [fold_left]. apply IH. apply sibling_seed_line_keys;
    [apply generate_hash_length | exact Hst].
Qed.

(** X19: the sibling tool cannot decode what it encodes. Every key that
    its seeding and encoding loops insert has 48 hexadecimal digits, while
    its decoding loop looks up keys of 8; so from a store of such keys (the
    empty store to begin with) the store stays such under seeding and
    encoding, and decoding any stream, the one just written included,
    prints no text at all. *)
Theorem sibling_cannot_decode_its_output
    (strip lower : string -> string) (items : gmap string string)
    (to_seed infile : list string) :
  map_Forall (fun k (_ : string) => String.length k = 48%nat) items ->
  let seeded :=
    fst (fst (fst (fold_left
                     (CollisionCli.seed_line
                        (CollisionMain._generate_hash strip lower) strip)
                     to_seed (items, 0%nat, 0%nat, [])))) in
  exists items' outfile new_lines_count out,
    CollisionMain.encode_loop strip lower infile (seeded, [], 0%nat, [])
    = inr (items', outfile, new_lines_count, out)
    /\ map_Forall (fun k (_ : string) => String.length k = 48%nat) items'
    /\ (forall text,
          CollisionMain.Text text
          ∉ CollisionMain.decode_loop items' outfile)
    /\ (forall f text,
          CollisionMain.Text text ∉ CollisionMain.decode_loop items' f).
Proof.
  intros Hkeys seeded.
  assert (map_Forall (fun k (_ : string) => String.length k = 48%nat) seeded)
    as Hseeded.
  { unfold seeded. apply sibling_seed_fold_keys. exact Hkeys. }
  destruct (sibling_encode_loop strip lower infile seeded [] 0%nat [])
    as (items' & outfile & count & out & E & _ & Hkeys').
  exists items', outfile, count, out.
  split; [exact E|]. split; [exact (Hkeys' Hseeded)|].
  split; intros; apply sibling_decode_no_text; exact (Hkeys' Hseeded).
Qed.

Lemma sibling_cannot_decode_its_output_witness :
  map_Forall (fun k (_ : string) => String.length k = 48%nat)
    (∅ : gmap string string)
  /\ exists items' outfile new_lines_count out,
       CollisionMain.encode_loop ascii_strip ascii_lower
         [terminated "Hello World"] (∅, [], 0%nat, [])
       = inr (items', outfile, new_lines_count, out)
       /\ forall text,
            CollisionMain.Text text
            ∉ CollisionMain.decode_loop items' outfile.
Proof.
  assert (map_Forall (fun k (_ : string) => String.length k = 48%nat)
            (∅ : gmap string string)) as H by apply map_Forall_empty.
  split; [exact H|].
  destruct (sibling_cannot_decode_its_output ascii_strip ascii_lower ∅ []
              [terminated "Hello World"] H)
    as (items' & outfile & count & out & E & _ & Hno & _).
  exists items', outfile, count, out.
  split; [exact E | exact Hno].
Defined.

(** The line "Hello World": its key, and the 24 bytes written for it. *)
Example sibling_encode_hello :
  CollisionMain.encode_loop ascii_strip ascii_lower
    [terminated "Hello World"] (∅, [], 0%nat, [])
  = inr (<["a52e52d7da7dabfac484efe37a5380ee9088f7ace2efcde9"
           := "Hello World"]> ∅,
         [xa5; x2e; x52; xd7; xda; x7d; xab; xfa; xc4; x84; xef; xe3;
          x7a; x53; x80; xee; x90; x88; xf7; xac; xe2; xef; xcd; xe9],
         1%nat, []).
Proof. vm_compute. reflexivity. Qed.

(** X20: the decoding loop of the sibling tool frames the stream as
    [decode_and_print] does and, when the store holds no empty text, prints
    the same lines: its only difference is that a stored empty string is
    reported as a missing hash. *)
Theorem sibling_decode_agrees
    (items : gmap string string) (f : list byte) :
  length (CollisionMain.decode_loop items f) = length (decode_loop items f)
  /\ ((forall k, items !! k <> Some EmptyString) ->
      CollisionMain.said_lines (CollisionMain.decode_loop items f)
      = output_lines (decode_loop items f)).
Proof.
  induction f as [|rest IH|b0 b1 b2 b3 rest Hne IH|b0 tail Hne Hlen]
    using records_ind.
  - split; reflexivity.
  - rewrite decode_loop_blank. cbn [CollisionMain.decode_loop].
    change (Byte.eqb x00 x00) with true. cbn iota.
    destruct IH as [IH1 IH2]. split; [cbn [length]; f_equal; exact IH1|].
    intros Hne. unfold CollisionMain.said_lines, output_lines in *.
    cbn. f_equal. exact (IH2 Hne).
  - rewrite decode_loop_hash by exact Hne. cbn [CollisionMain.decode_loop].
    rewrite (byte_eqb_x00 _ Hne).
    destruct IH as [IH1 IH2]. split; [cbn [length]; f_equal; exact IH1|].
    intros Hno. unfold CollisionMain.said_lines, output_lines in *.
    unfold decode_hash, CollisionMain.get_string_by_hash.
    destruct (items !! Bytes.hex [b0; b1; b2; b3]) as [[|c text]|] eqn:E.
    + exfalso. exact (Hno _ E).
    + cbn. f_equal. exact (IH2 Hno).
    + cbn. exact (IH2 Hno).
  - rewrite (decode_loop_short items b0 tail Hne Hlen).
    cbn [CollisionMain.decode_loop]. rewrite (byte_eqb_x00 _ Hne).
    destruct tail as [|b1 [|b2 [|b3 rest']]]; try (simpl in Hlen; lia);
      split; reflexivity.
Qed.

(** ** [main] of the sibling tool *)

Lemma sibling_new_store (w : os) (db_path : string)
    (q : CollisionMain.cprocess) :
  exists d out,
    CollisionMain.new_store w db_path q
    = (Returns tt,
       {| CollisionMain.c_store := d;
          CollisionMain.c_stdout := CollisionMain.c_stdout q ++ out;
          CollisionMain.c_files := CollisionMain.c_files q;
          CollisionMain.c_blobs := CollisionMain.c_blobs q |}).
Proof.
  unfold CollisionMain.new_store, CollisionMain.lift,
    CollisionCli._load_store.
  destruct (path_exists w db_path).
  - destruct (gzip_pickle_load w db_path) as [e|d].
    + destruct (is_UnpicklingError e || is_EOFError e || is_BadGzipFile e);
        run; eauto.
    + run. eauto.
  - run. eauto.
Qed.

Lemma sibling_process_file_outcomes strip lower w input_file output_file q :
  match CollisionMain.process_file strip lower w input_file output_file q
  with
  | (Returns _, q') =>
      CollisionMain.c_blobs q' = CollisionMain.c_blobs q
      /\ (open_text w input_file = inl FileNotFoundError ->
          CollisionMain.c_files q' = CollisionMain.c_files q
          /\ CollisionMain.c_store q' = CollisionMain.c_store q
          /\ CollisionMain.c_stdout q'
             = CollisionMain.c_stdout q
               ++ [CollisionMain.ErrorInputNotFound input_file])
  | (Exits _, _) => False
  | (Raises e, _) =>
      is_IOError e = false /\ open_text w input_file <> inl FileNotFoundError
  end.
Proof.
  unfold CollisionMain.process_file.
  destruct (open_text w input_file) as [e|infile] eqn:Eo.
  - destruct e; cbn; try (split; [reflexivity|]); try reflexivity;
      try (intros [=]); try discriminate; auto.
  - destruct (open_write w output_file) as [e|] eqn:Ew.
    + destruct e; cbn; try (split; [reflexivity|]); try reflexivity;
        try (intros [=]); discriminate.
    + destruct (sibling_encode_loop strip lower infile
                  (CollisionMain.c_store q) [] 0%nat [])
        as (items' & outfile & count & out & -> & _).
      split; [reflexivity | intros [=]].
Qed.

(** X21: with [--input] the sibling tool never leaves through [sys.exit]
    once an output name is there: it returns, or an exception that is no
    [IOError] escapes. A missing input file is reported, nothing is
    encoded, and the run still saves the store it loaded and ends with
    status 0. *)
Theorem sibling_input_never_exits
    (strip lower : string -> string) (w : os)
    (db_path input_file output_file : string)
    (q : CollisionMain.cprocess) :
  truthy output_file = true ->
  let r :=
    CollisionMain.main_input strip lower w db_path input_file
      (Some output_file) q in
  (forall status, fst r <> Exits status)
  /\ (forall e, fst r = Raises e -> is_IOError e = false)
  /\ (open_text w input_file = inl FileNotFoundError ->
      open_write w db_path = None ->
      CollisionMain.c_exit_status r = 0
      /\ CollisionMain.c_files (snd r) = CollisionMain.c_files q
      /\ CollisionMain.c_blobs (snd r)
         = CollisionMain.c_blobs q
           ++ [(db_path, CollisionMain.c_store (snd r))]
      /\ CollisionMain.ErrorInputNotFound input_file
         ∈ CollisionMain.c_stdout (snd r)).
Proof.
  intros Ho r. unfold r. clear r.
  unfold CollisionMain.main_input, given. rewrite Ho.
  unfold mbind, CollisionMain.C_bind, CollisionMain.say.
  destruct (sibling_new_store w db_path
              {| CollisionMain.c_store := CollisionMain.c_store q;
                 CollisionMain.c_stdout :=
                   CollisionMain.c_stdout q
                   ++ [CollisionMain.Deduplicating input_file output_file
                         db_path];
                 CollisionMain.c_files := CollisionMain.c_files q;
                 CollisionMain.c_blobs := CollisionMain.c_blobs q |})
    as (d & out & ->).
  match goal with
  | |- context [CollisionMain.process_file _ _ _ _ _ ?q1] =>
      pose proof (sibling_process_file_outcomes strip lower w input_file
                    output_file q1) as Hp;
      destruct (CollisionMain.process_file strip lower w input_file
                  output_file q1) as [[[]|n|e] q2]
  end; [|contradiction|].
  - destruct Hp as [Hb Hmissing].
    cbn [CollisionMain.c_blobs CollisionMain.c_files CollisionMain.c_store
         CollisionMain.c_stdout] in Hb, Hmissing.
    unfold CollisionMain.lift, CollisionCli.save_store.
    destruct (open_write w db_path) as [e|] eqn:Ew.
    + destruct (is_IOError e) eqn:Ee; run; cbn [fst snd];
        (split; [discriminate|]);
        (split; [intros e' [=]; congruence|]); intros _ [=].
    + run. cbn [fst snd CollisionMain.c_exit_status CollisionMain.c_files
                CollisionMain.c_blobs CollisionMain.c_store
                CollisionMain.c_stdout].
      split; [discriminate|]. split; [discriminate|].
      intros Hm _. destruct (Hmissing Hm) as (Hf & Hs & Hout).
      unfold CollisionMain.c_exit_status. cbn [fst].
      split; [reflexivity|]. split; [exact Hf|].
      split; [rewrite Hb; reflexivity|].
      rewrite Hout. apply elem_of_app. left. apply elem_of_app. right. left.
  - cbn [fst snd]. split; [discriminate|].
    split; [intros e' [= <-]; exact (proj1 Hp)|].
    intros Hm. exfalso. exact (proj2 Hp Hm).
Qed.

Lemma sibling_input_never_exits_witness :
  truthy "out.bin" = true
  /\ open_text bare_os "in.txt" = inl FileNotFoundError
  /\ CollisionMain.main_input ascii_strip ascii_lower bare_os
       "dedupe_main.db" "in.txt" (Some "out.bin") CollisionMain.c_initial
     = (Returns tt,
        {| CollisionMain.c_store := ∅;
           CollisionMain.c_stdout :=
             [CollisionMain.Deduplicating "in.txt" "out.bin" "dedupe_main.db";
              CollisionMain.ErrorInputNotFound "in.txt";
              CollisionMain.Old (C_Saved 0 "dedupe_main.db")];
           CollisionMain.c_files := [];
           CollisionMain.c_blobs := [("dedupe_main.db", ∅)] |})
  /\ CollisionMain.c_exit_status
       (CollisionMain.main_input ascii_strip ascii_lower bare_os
          "dedupe_main.db" "in.txt" (Some "out.bin") CollisionMain.c_initial)
     = 0.
Proof.
  split; [reflexivity|]. split; [reflexivity|]. split; [reflexivity|].
  exact (proj1 (proj2 (proj2 (sibling_input_never_exits ascii_strip
                                ascii_lower bare_os "dedupe_main.db" "in.txt"
                                "out.bin" CollisionMain.c_initial eq_refl))
                  eq_refl eq_refl)).
Defined.

(** X22: the decode action of the sibling tool ends with status 1 exactly
    when the hash file cannot be opened, and with status 0 otherwise, a
    stream that ends inside a record included; it prints what its decoding
    loop gives for the store it loaded, and it writes nothing: no file and,
    unlike [main] of [final_dedupe_cli.py], no store. *)
Theorem sibling_decode_outcomes
    (w : os) (db_path hash_file : string) (q : CollisionMain.cprocess) :
  let r := CollisionMain.main_decode w db_path hash_file q in
  CollisionMain.c_exit_status r
  = match open_binary w hash_file with inl _ => 1 | inr _ => 0 end
  /\ CollisionMain.c_files (snd r) = CollisionMain.c_files q
  /\ CollisionMain.c_blobs (snd r) = CollisionMain.c_blobs q
  /\ forall f,
       open_binary w hash_file = inr f ->
       exists before,
         CollisionMain.c_stdout (snd r)
         = before
           ++ CollisionMain.decode_loop (CollisionMain.c_store (snd r)) f.
Proof.
  intros r. unfold r. clear r. unfold CollisionMain.main_decode.
  unfold mbind, CollisionMain.C_bind, CollisionMain.say.
  destruct (sibling_new_store w db_path
              {| CollisionMain.c_store := CollisionMain.c_store q;
                 CollisionMain.c_stdout :=
                   CollisionMain.c_stdout q
                   ++ [CollisionMain.Decoding hash_file db_path];
                 CollisionMain.c_files := CollisionMain.c_files q;
                 CollisionMain.c_blobs := CollisionMain.c_blobs q |})
    as (d & out & ->).
  destruct (open_binary w hash_file) as [e|f].
  - unfold CollisionMain.c_exit, CollisionMain.c_exit_status. cbn.
    repeat split. intros f [=].
  - unfold CollisionMain.say_all, CollisionMain.c_exit_status. cbn.
    repeat split. intros f' [= <-]. eauto.
Qed.

(** X23: the constructor of the sibling's [HashStore] always returns: no
    failure of the load escapes or ends the process. The dictionary is the
    one the store file holds, or empty, and nothing is written. *)
Theorem sibling_constructor_always_returns
    (w : os) (db_path : string) (q : CollisionMain.cprocess) :
  exists q',
    CollisionMain.new_store w db_path q = (Returns tt, q')
    /\ (CollisionMain.c_store q' = ∅
        \/ (path_exists w db_path = true
            /\ gzip_pickle_load w db_path
               = inr (CollisionMain.c_store q')))
    /\ CollisionMain.c_files q' = CollisionMain.c_files q
    /\ CollisionMain.c_blobs q' = CollisionMain.c_blobs q.
Proof.
  unfold CollisionMain.new_store, CollisionMain.lift,
    CollisionCli._load_store.
  destruct (path_exists w db_path).
  - destruct (gzip_pickle_load w db_path) as [e|d].
    + destruct (is_UnpicklingError e || is_EOFError e || is_BadGzipFile e);
        run; eexists; (split; [reflexivity|]); cbn; auto.
    + run. eexists. split; [reflexivity|]. cbn. auto.
  - run. eexists. split; [reflexivity|]. cbn. auto.
Qed.

Lemma sibling_seed_files_return _generate_hash strip w file_paths :
  forall total_new_lines total_lines p,
    exists counts p',
      CollisionCli.seed_files _generate_hash strip w file_paths
        total_new_lines total_lines p
      = (Returns counts, p')
      /\ files p' = files p /\ blobs p' = blobs p.
Proof.
  induction file_paths as [|file_path rest IH];
    intros total_new_lines total_lines p.
  - cbn. run. eauto.
  - cbn [CollisionCli.seed_files]. run.
    destruct (open_text w file_path) as [e|f].
    + run.
      match goal with
      | |- context [CollisionCli.seed_files _ _ _ _ _ _ ?p1] =>
          destruct (IH total_new_lines total_lines p1)
            as (counts & p' & -> & Hf & Hb)
      end.
      eauto.
    + run.
      destruct (fold_left (CollisionCli.seed_line _generate_hash strip) f
                  (store p, total_new_lines, total_lines, []))
        as [[[d' new_lines] lines] out].
      run.
      match goal with
      | |- context [CollisionCli.seed_files _ _ _ _ ?n ?t ?p1] =>
          destruct (IH n t p1) as (counts & p' & -> & Hf & Hb)
      end.
      eauto.
Qed.

(** X24: the seed action of the sibling tool leaves through [sys.exit]
    only when no file matches (status 1). With files to read, no unreadable
    file and no failure of the load stops it, and a store file that cannot
    be written for an [IOError] is only reported: the run ends normally,
    with status 0, although nothing was saved. *)
Theorem sibling_seed_outcomes
    (_generate_hash strip : string -> string) (w : os)
    (db_path glob_pattern : string) (p : process) :
  let r :=
    CollisionCli.main_seed _generate_hash strip w db_path glob_pattern p in
  (glob_glob w glob_pattern true = [] -> fst r = Exits 1)
  /\ (glob_glob w glob_pattern true <> [] ->
      match open_write w db_path with
      | None =>
          fst r = Returns tt
          /\ blobs (snd r) = blobs p ++ [(db_path, store (snd r))]
      | Some e =>
          blobs (snd r) = blobs p
          /\ fst r = if is_IOError e then Returns tt else Raises e
      end).
Proof.
  intros r. unfold r. clear r. unfold CollisionCli.main_seed.
  destruct (glob_glob w glob_pattern true) as [|f fs];
    [split; [intros _; run; reflexivity | intros H; contradiction]|].
  split; [discriminate|]. intros _.
  unfold CollisionCli._load_store, CollisionCli.save_store.
  destruct (path_exists w db_path);
    [destruct (gzip_pickle_load w db_path) as [e0|d];
     [destruct (is_UnpicklingError e0 || is_EOFError e0 || is_BadGzipFile e0)|]
    |];
    run;
    match goal with
    | |- context [CollisionCli.seed_files _ _ _ _ ?n ?t ?p1] =>
        destruct (sibling_seed_files_return _generate_hash strip w (f :: fs)
                    n t p1) as (counts & p' & -> & Hf & Hb)
    end;
    cbn [blobs files] in Hb;
    (destruct (open_write w db_path) as [e|];
     [destruct (is_IOError e)|]); run; auto;
    rewrite Hb; auto.
Qed.
